(** * compute_f1_hash: alignment by request fingerprint and tool-call F1

    A shallow embedding of [compute_f1_hash.py] and the properties of its
    fingerprint, index builder, finish-reason extractor and scoring loop.

    Decoded log lines are JSON values as Python's [json.loads] builds them.
    A [dict] is an association list in insertion order, so the order of keys
    is part of the data and [json.dumps(..., sort_keys=True)] has something
    to normalise; the keys of a Python [dict] are distinct, which is the
    predicate [keys_distinct].  A Python [str] is represented by its UTF-8
    encoding, a [string] of bytes: the order on code points and the order on
    UTF-8 bytes coincide and [.encode("utf-8")] is the identity on this
    representation (text with lone surrogates, which has no UTF-8 encoding, is
    outside the model).  An exception is a result [Raise e]. *)

From Stdlib Require Import ZArith SpecFloat Ascii.
From stdpp Require Import gmap strings list sorting pretty.

(** ** Python values decoded from JSON *)

#[local] Unset Elimination Schemes.

Inductive json : Type :=
| JNull
| JBool (b : bool)
| JInt (n : Z)
| JFloat (f : spec_float)
| JStr (s : string)
| JArr (xs : list json)
| JObj (kvs : list (string * json)).

#[local] Set Elimination Schemes.

(** A decoded record: a Python [dict] with [str] keys. *)
Abbreviation dict := (list (string * json)).

(** ** Exceptions *)

Inductive exn : Type :=
| AttributeError
| IndexError
| TypeError
| KeyError
| ZeroDivisionError.

Inductive result (A : Type) : Type :=
| Ok (a : A)
| Raise (e : exn).

Arguments Ok {A} a.
Arguments Raise {A} e.

Definition bind {A B} (r : result A) (k : A -> result B) : result B :=
  match r with
  | Ok a => k a
  | Raise e => Raise e
  end.

Notation "x <- r ;; k" := (bind r (fun x => k))
  (at level 100, r at next level, right associativity).

Global Instance exn_eq_dec : EqDecision exn.
Proof. solve_decision. Defined.

Global Instance result_eq_dec {A} `{EqDecision A} : EqDecision (result A).
Proof. solve_decision. Defined.

(** ** The builtins the program relies on

    [float.__repr__], [hashlib.md5(...).hexdigest()] and [round(x, 2)] belong
    to the Python runtime, not to the program; every result below holds for
    any choice of them. *)

Class PyLib : Type := {
  float_repr : spec_float -> string;
  md5_hexdigest : string -> string;
  round2 : spec_float -> spec_float
}.

(** ** Dictionary access and truth values *)

(** [d.get(k)] on the association list; [None] when the key is absent. *)
Fixpoint dict_get (d : dict) (k : string) : option json :=
  match d with
  | [] => None
  | (k', v) :: d' => if decide (k' = k) then Some v else dict_get d' k
  end.

(** [d.get(k, dflt)]. *)
Definition get_or (d : dict) (k : string) (dflt : json) : json :=
  default dflt (dict_get d k).

(** [bool(v)]: Python's truth value of a decoded JSON value. *)
Definition truthy (v : json) : bool :=
  match v with
  | JNull => false
  | JBool b => b
  | JInt n => negb (n =? 0)%Z
  | JFloat (S754_zero _) => false
  | JFloat _ => true
  | JStr "" => false
  | JStr _ => true
  | JArr [] => false
  | JArr _ => true
  | JObj [] => false
  | JObj _ => true
  end.

(** [a or b]. *)
Definition py_or (a b : json) : json := if truthy a then a else b.

(** [v.get(k, dflt)] on an arbitrary value: only a [dict] has the method. *)
Definition attr_get (v : json) (k : string) (dflt : json) : result json :=
  match v with
  | JObj d => Ok (get_or d k dflt)
  | _ => Raise AttributeError
  end.

(** [isinstance(v, list)] and [isinstance(v, str)]. *)
Definition isinstance_list (v : json) : bool :=
  match v with JArr _ => true | _ => false end.

Definition isinstance_str (v : json) : bool :=
  match v with JStr _ => true | _ => false end.

(** [v[0]] for a list [v]; the program subscripts [choices] only after
    [isinstance(choices, list)], so nothing but a list gets here. *)
Definition subscript0 (v : json) : result json :=
  match v with
  | JArr (x :: _) => Ok x
  | JArr [] => Raise IndexError
  | _ => Raise TypeError
  end.

(** ** [json.dumps(obj, ensure_ascii=False, sort_keys=True)] *)

Definition quote_char : ascii := "034"%char.

Definition hex_digit (n : N) : ascii :=
  match n with
  | 0 => "0" | 1 => "1" | 2 => "2" | 3 => "3" | 4 => "4" | 5 => "5"
  | 6 => "6" | 7 => "7" | 8 => "8" | 9 => "9" | 10 => "a" | 11 => "b"
  | 12 => "c" | 13 => "d" | 14 => "e" | _ => "f"
  end%N%char.

(** One character of a string literal: the quote, the backslash and the
    control characters below 0x20 are escaped, everything else (all bytes of
    non-ASCII text included) is kept. *)
Definition escape_char (c : ascii) : string :=
  let n := N_of_ascii c in
  if (n =? 34)%N then String "\" (String quote_char "")
  else if (n =? 92)%N then "\\"
  else if (n =? 10)%N then "\n"
  else if (n =? 13)%N then "\r"
  else if (n =? 9)%N then "\t"
  else if (n =? 8)%N then "\b"
  else if (n =? 12)%N then "\f"
  else if (n <? 32)%N then
    "\u00" +:+ String (hex_digit (n / 16)) (String (hex_digit (n mod 16)) "")
  else String c "".

Fixpoint escape (s : string) : string :=
  match s with
  | EmptyString => ""
  | String c s' => escape_char c +:+ escape s'
  end.

Definition encode_basestring (s : string) : string :=
  String quote_char (escape s +:+ String quote_char "").

(** [sep.join(parts)]. *)
Fixpoint join (sep : string) (parts : list string) : string :=
  match parts with
  | [] => ""
  | [p] => p
  | p :: ps => p +:+ sep +:+ join sep ps
  end.

(** The order [sorted] puts the items of a [dict] in: by key. *)
Definition key_le {V} (a b : string * V) : Prop := String.le a.1 b.1.

Global Instance key_le_dec {V} : RelDecision (@key_le V).
Proof. intros a b. unfold key_le. apply _. Defined.

Definition sort_items {V} (items : list (string * V)) : list (string * V) :=
  merge_sort key_le items.

(** [json.encoder]'s [floatstr], with [allow_nan] at its default. *)
Definition floatstr {lib : PyLib} (f : spec_float) : string :=
  match f with
  | S754_nan => "NaN"
  | S754_infinity false => "Infinity"
  | S754_infinity true => "-Infinity"
  | _ => float_repr f
  end.

Definition encode_item (kv : string * string) : string :=
  encode_basestring kv.1 +:+ ": " +:+ kv.2.

(** The encoder sorts the items of a dict and then encodes them.  Here the
    values are encoded first, which keeps the recursion structural; with
    distinct keys the two orders give the same text ([json_dumps_obj]). *)
Fixpoint json_dumps {lib : PyLib} (v : json) : string :=
  match v with
  | JNull => "null"
  | JBool true => "true"
  | JBool false => "false"
  | JInt n => pretty n
  | JFloat f => floatstr f
  | JStr s => encode_basestring s
  | JArr xs => "[" +:+ join ", " (json_dumps <$> xs) +:+ "]"
  | JObj kvs =>
      "{" +:+ join ", " (encode_item <$>
        sort_items ((fun kv => (kv.1, json_dumps kv.2)) <$> kvs)) +:+ "}"
  end.

(** ** [compute_messages_hash] *)

Definition compute_messages_hash {lib : PyLib} (entry : dict)
  : result string :=
  let req := get_or entry "request" (JObj []) in
  messages <- attr_get req "messages" (JArr []) ;;
  tools <- attr_get req "tools" JNull ;;
  tool_choice <- attr_get req "tool_choice" JNull ;;
  let key_obj := JObj [("messages", messages); ("tools", tools);
                       ("tool_choice", tool_choice)] in
  let serialized := json_dumps key_obj in
  Ok (md5_hexdigest serialized).

(** ** [extract_finish_reason] *)

Definition extract_finish_reason (entry : dict) : result json :=
  let fr := get_or entry "finish_reason" JNull in
  if truthy fr then Ok fr else
  let resp := py_or (get_or entry "response" JNull) (JObj []) in
  c <- attr_get resp "choices" JNull ;;
  let choices := py_or c (JArr []) in
  if truthy choices && isinstance_list choices then
    c0 <- subscript0 choices ;;
    let ch0 := py_or c0 (JObj []) in
    fr <- attr_get ch0 "finish_reason" JNull ;;
    if truthy fr then Ok fr else Ok JNull
  else Ok JNull.

(** ** [build_map_by_messages_hash] *)

(** One iteration of [for r in rows] on the state [(mapping, dups)]. *)
Definition build_step {lib : PyLib} (st : gmap string dict * nat) (r : dict)
  : result (gmap string dict * nat) :=
  h <- compute_messages_hash r ;;
  if decide (h ∈ dom st.1) then Ok (st.1, S st.2)
  else Ok (<[h := r]> st.1, st.2).

Fixpoint build_loop {lib : PyLib} (rows : list dict)
    (st : gmap string dict * nat) : result (gmap string dict * nat) :=
  match rows with
  | [] => Ok st
  | r :: rows' => st' <- build_step st r ;; build_loop rows' st'
  end.

Definition build_map_by_messages_hash {lib : PyLib} (rows : list dict)
  : result (gmap string dict * nat) :=
  build_loop rows (∅, 0%nat).

(** ** The classification loop of [main] *)

(** The local counters of [main]. *)
Record counters : Type := Counters {
  TP : nat;
  FP : nat;
  FN : nat;
  TN : nat;
  count_finish_reason_tool_calls : nat;
  count_successful_tool_call : nat
}.

Definition counters_zero : counters := Counters 0 0 0 0 0 0.

(** [fr == s] for a string literal [s]. *)
Definition eq_str (v : json) (s : string) : bool :=
  match v with
  | JStr s' => bool_decide (s' = s)
  | _ => false
  end.

Definition is_tool_calls (fr : json) : bool :=
  isinstance_str fr && eq_str fr "tool_calls".

(** [m[h]]. *)
Definition map_item (m : gmap string dict) (h : string) : result dict :=
  match m !! h with
  | Some r => Ok r
  | None => Raise KeyError
  end.

(** The [if]/[elif] chain on the two booleans. *)
Definition bump_matrix (ours_tc off_tc : bool) (c : counters) : counters :=
  if ours_tc && off_tc then
    Counters (S (TP c)) (FP c) (FN c) (TN c)
      (count_finish_reason_tool_calls c) (count_successful_tool_call c)
  else if ours_tc && negb off_tc then
    Counters (TP c) (S (FP c)) (FN c) (TN c)
      (count_finish_reason_tool_calls c) (count_successful_tool_call c)
  else if negb ours_tc && off_tc then
    Counters (TP c) (FP c) (S (FN c)) (TN c)
      (count_finish_reason_tool_calls c) (count_successful_tool_call c)
  else
    Counters (TP c) (FP c) (FN c) (S (TN c))
      (count_finish_reason_tool_calls c) (count_successful_tool_call c).

(** The second [if] of the body: the two schema counters. *)
Definition bump_schema (ours_tc valid : bool) (c : counters) : counters :=
  if ours_tc then
    let c' := Counters (TP c) (FP c) (FN c) (TN c)
                (S (count_finish_reason_tool_calls c))
                (count_successful_tool_call c) in
    if valid then
      Counters (TP c') (FP c') (FN c') (TN c')
        (count_finish_reason_tool_calls c')
        (S (count_successful_tool_call c'))
    else c'
  else c.

(** The body of [for h in aligned]. *)
Definition classify_step (ours_map off_map : gmap string dict)
    (c : counters) (h : string) : result counters :=
  ours <- map_item ours_map h ;;
  off <- map_item off_map h ;;
  fr_ours <- extract_finish_reason ours ;;
  fr_off <- extract_finish_reason off ;;
  let ours_tc := is_tool_calls fr_ours in
  let off_tc := is_tool_calls fr_off in
  let c := bump_matrix ours_tc off_tc c in
  Ok (bump_schema ours_tc (truthy (get_or ours "tool_calls_valid" JNull)) c).

Fixpoint classify_loop (ours_map off_map : gmap string dict)
    (hs : list string) (c : counters) : result counters :=
  match hs with
  | [] => Ok c
  | h :: hs' =>
      c' <- classify_step ours_map off_map c h ;;
      classify_loop ours_map off_map hs' c'
  end.

(** [sorted(keys_ours & keys_off)]. *)
Definition aligned (ours_map off_map : gmap string dict) : list string :=
  merge_sort String.le (elements (dom ours_map ∩ dom off_map)).

(** ** The derived ratios *)

(** Python's [float] is IEEE 754 binary64. *)
Definition prec : Z := 53.
Definition emax : Z := 1024.

Definition float_zero : spec_float := S754_zero false.

(** [float(n)] for an [int]. *)
Definition float_of_int (n : Z) : spec_float :=
  binary_normalize prec emax n 0 false.

(** [a / b] on two [int]s: the quotient of the two conversions, which is the
    correctly rounded quotient for counts below 2^53. *)
Definition int_truediv (a b : Z) : result spec_float :=
  if (b =? 0)%Z then Raise ZeroDivisionError
  else Ok (SFdiv prec emax (float_of_int a) (float_of_int b)).

(** [a / b] on two [float]s. *)
Definition float_truediv (a b : spec_float) : result spec_float :=
  if SFeqb b float_zero then Raise ZeroDivisionError
  else Ok (SFdiv prec emax a b).

(** [x > 0] on a [float]. *)
Definition float_pos (x : spec_float) : bool := SFltb float_zero x.

Definition precision_of (tp fp : nat) : result spec_float :=
  if (0 <? Z.of_nat (tp + fp))%Z then
    int_truediv (Z.of_nat tp) (Z.of_nat (tp + fp))
  else Ok float_zero.

Definition recall_of (tp fn : nat) : result spec_float :=
  if (0 <? Z.of_nat (tp + fn))%Z then
    int_truediv (Z.of_nat tp) (Z.of_nat (tp + fn))
  else Ok float_zero.

Definition f1_of (precision recall : spec_float) : result spec_float :=
  if float_pos (SFadd prec emax precision recall) then
    float_truediv
      (SFmul prec emax (SFmul prec emax (float_of_int 2) precision) recall)
      (SFadd prec emax precision recall)
  else Ok float_zero.

Definition schema_accuracy_of (successful triggered : nat)
  : result spec_float :=
  if (0 <? Z.of_nat triggered)%Z then
    int_truediv (Z.of_nat successful) (Z.of_nat triggered)
  else Ok float_zero.

(** The four ratios at full precision, in the order [main] computes them. *)
Definition ratios (c : counters)
  : result (spec_float * spec_float * spec_float * spec_float) :=
  precision <- precision_of (TP c) (FP c) ;;
  recall <- recall_of (TP c) (FN c) ;;
  f1 <- f1_of precision recall ;;
  schema_accuracy <-
    schema_accuracy_of (count_successful_tool_call c)
      (count_finish_reason_tool_calls c) ;;
  Ok (precision, recall, f1, schema_accuracy).

(** ** [main], from the loaded rows to the summary *)

(** [round(x * 100, 2)]. *)
Definition percent {lib : PyLib} (x : spec_float) : json :=
  JFloat (round2 (SFmul prec emax x (float_of_int 100))).

Definition JNat (n : nat) : json := JInt (Z.of_nat n).

(** The [summary] dict. *)
Definition summary_of {lib : PyLib}
    (n_ours n_off n_aligned ours_dups off_dups : nat) (c : counters)
    (r : spec_float * spec_float * spec_float * spec_float) : json :=
  let '(precision, recall, f1, schema_accuracy) := r in
  JObj [
    ("alignment", JObj [
       ("ours_total_unique_hashes", JNat n_ours);
       ("official_total_unique_hashes", JNat n_off);
       ("aligned", JNat n_aligned);
       ("duplicate_ours_hashes", JNat ours_dups);
       ("duplicate_official_hashes", JNat off_dups);
       ("key_type", JStr "messages_tools_tool_choice_hash")]);
    ("tool_call_trigger_similarity", JObj [
       ("TP", JNat (TP c));
       ("FP", JNat (FP c));
       ("FN", JNat (FN c));
       ("TN", JNat (TN c));
       ("precision", percent precision);
       ("recall", percent recall);
       ("tool_call_f1", percent f1)]);
    ("tool_call_schema_accuracy", JObj [
       ("count_finish_reason_tool_calls",
        JNat (count_finish_reason_tool_calls c));
       ("count_successful_tool_call", JNat (count_successful_tool_call c));
       ("schema_accuracy", percent schema_accuracy)])].

(** [main] once the two indices are built, processing the aligned
    fingerprints in the order [hs]. *)
Definition score_in_order {lib : PyLib} (ours_map off_map : gmap string dict)
    (ours_dups off_dups : nat) (hs : list string) : result json :=
  c <- classify_loop ours_map off_map hs counters_zero ;;
  r <- ratios c ;;
  Ok (summary_of (size ours_map) (size off_map) (length hs)
        ours_dups off_dups c r).

(** [main] on the rows the loader returned for the two files. *)
Definition main {lib : PyLib} (ours_rows off_rows : list dict)
  : result json :=
  ours <- build_map_by_messages_hash ours_rows ;;
  off <- build_map_by_messages_hash off_rows ;;
  score_in_order ours.1 off.1 ours.2 off.2 (aligned ours.1 off.1).

(** ** Vocabulary of the properties *)

(** The Finish-Reason Extractor as the specification words it: the top-level
    field when present and non-empty, else the first choice's field when the
    record has that shape, else the absence marker.  Non-empty is Python's
    truth value; the absence marker is [None]. *)
Definition nested_finish_reason_spec (entry : dict) : json :=
  match dict_get entry "response" with
  | Some (JObj resp) =>
      match dict_get resp "choices" with
      | Some (JArr (JObj ch0 :: _)) =>
          match dict_get ch0 "finish_reason" with
          | Some fr => if truthy fr then fr else JNull
          | None => JNull
          end
      | _ => JNull
      end
  | _ => JNull
  end.

Definition extract_finish_reason_spec (entry : dict) : json :=
  match dict_get entry "finish_reason" with
  | Some fr => if truthy fr then fr else nested_finish_reason_spec entry
  | None => nested_finish_reason_spec entry
  end.

(** A value on which [(v or {}).get] does not raise. *)
Definition dict_or_falsy (v : json) : bool :=
  match v with
  | JObj _ => true
  | _ => negb (truthy v)
  end.

(** The nested shape the extractor can walk: [response] is absent, falsy or
    a dict, and so is the first element of a non-empty [choices] list. *)
Definition nested_shape_ok (entry : dict) : bool :=
  match get_or entry "response" JNull with
  | JObj resp =>
      match get_or resp "choices" JNull with
      | JArr (c0 :: _) => dict_or_falsy c0
      | _ => true
      end
  | v => negb (truthy v)
  end.

(** The records the extractor returns on: the top-level field settles the
    answer, or the nested shape can be walked. *)
Definition extractable (entry : dict) : bool :=
  truthy (get_or entry "finish_reason" JNull) || nested_shape_ok entry.

(** [request] is absent or a dict. *)
Definition request_ok (entry : dict) : bool :=
  match get_or entry "request" (JObj []) with
  | JObj _ => true
  | _ => false
  end.

(** The three values [compute_messages_hash] reads, with the defaults it
    substitutes; [None] when [request] is not a dict. *)
Definition request_fields (entry : dict) : option (json * json * json) :=
  match get_or entry "request" (JObj []) with
  | JObj req =>
      Some (get_or req "messages" (JArr []), get_or req "tools" JNull,
            get_or req "tool_choice" JNull)
  | _ => None
  end.

(** The key object of a record without [request]. *)
Definition default_key_obj : json :=
  JObj [("messages", JArr []); ("tools", JNull); ("tool_choice", JNull)].

(** The keys of every dict inside [v] are pairwise distinct, as in every
    Python [dict]. *)
Fixpoint keys_distinct (v : json) : bool :=
  match v with
  | JArr xs => forallb keys_distinct xs
  | JObj kvs =>
      bool_decide (NoDup kvs.*1)
      && forallb (fun kv => keys_distinct kv.2) kvs
  | _ => true
  end.

#[local] Unset Elimination Schemes.

(** Two values are equal as logical values: the same scalar of the same type
    (the int 1, the float 1.0 and [true] are three values, as the decoder
    makes them), lists equal element by element, and dicts with the same keys
    bound to equal values, in whatever order the keys were inserted. *)
Inductive json_equiv : json -> json -> Prop :=
| equiv_null : json_equiv JNull JNull
| equiv_bool b : json_equiv (JBool b) (JBool b)
| equiv_int n : json_equiv (JInt n) (JInt n)
| equiv_float f : json_equiv (JFloat f) (JFloat f)
| equiv_str s : json_equiv (JStr s) (JStr s)
| equiv_arr xs ys :
    Forall2 json_equiv xs ys -> json_equiv (JArr xs) (JArr ys)
| equiv_obj kvs1 kvs kvs2 :
    kvs1 ≡ₚ kvs ->
    Forall2 (fun a b => a.1 = b.1 /\ json_equiv a.2 b.2) kvs kvs2 ->
    json_equiv (JObj kvs1) (JObj kvs2).

#[local] Set Elimination Schemes.

(** The record at position [i] carries a fingerprint that an earlier record
    of [rows] carries as well. *)
Definition later_duplicate {lib : PyLib} (rows : list dict) (i : nat) : bool :=
  match rows !! i with
  | Some r =>
      bool_decide (compute_messages_hash r
                   ∈ compute_messages_hash <$> take i rows)
  | None => false
  end.

(** The record [r] at position [i] is the first of [rows] with fingerprint
    [h]. *)
Definition first_with_hash {lib : PyLib} (rows : list dict) (h : string)
    (i : nat) (r : dict) : Prop :=
  rows !! i = Some r /\ compute_messages_hash r = Ok h
  /\ forall j r', j < i -> rows !! j = Some r' ->
       compute_messages_hash r' <> Ok h.

(** Exactly one of the four confusion-matrix counters went up by one, and
    the other three kept their value. *)
Definition exactly_one_incremented (c c' : counters) : Prop :=
  (TP c' = S (TP c) /\ FP c' = FP c /\ FN c' = FN c /\ TN c' = TN c)
  \/ (TP c' = TP c /\ FP c' = S (FP c) /\ FN c' = FN c /\ TN c' = TN c)
  \/ (TP c' = TP c /\ FP c' = FP c /\ FN c' = S (FN c) /\ TN c' = TN c)
  \/ (TP c' = TP c /\ FP c' = FP c /\ FN c' = FN c /\ TN c' = S (TN c)).

(** ** Sample records

    A runtime to evaluate the model with: the digest of a text is the text
    itself, and no float is printed or rounded in the samples. *)
Definition sample_lib : PyLib :=
  {| float_repr := fun _ => "0.0";
     md5_hexdigest := fun s => s;
     round2 := fun x => x |}.

Definition user_hi : json :=
  JObj [("role", JStr "user"); ("content", JStr "hi")].

Definition user_hi_reordered : json :=
  JObj [("content", JStr "hi"); ("role", JStr "user")].

(** A candidate record in the flattened shape. *)
Definition rec_tool : dict :=
  [("model", JStr "k2");
   ("request", JObj [("messages", JArr [user_hi]); ("temperature", JInt 1)]);
   ("finish_reason", JStr "tool_calls");
   ("tool_calls_valid", JBool true)].

(** The same request in another key order, in the raw response shape. *)
Definition rec_stop : dict :=
  [("request", JObj [("tool_choice", JNull);
                     ("messages", JArr [user_hi_reordered])]);
   ("response", JObj [("choices",
      JArr [JObj [("finish_reason", JStr "stop")]])])].

(** A record with none of the optional fields. *)
Definition rec_bare : dict := [("model", JStr "k2")].

(** The fingerprint of [rec_tool] and [rec_stop] under [sample_lib]. *)
Definition h_hi : string := Eval vm_compute in
    match @compute_messages_hash sample_lib rec_tool with
    | Ok h => h
    | Raise _ => ""
    end.

Definition ours_sample : gmap string dict := {[ h_hi := rec_tool ]}.

Definition off_sample : gmap string dict :=
  {[ h_hi := rec_stop; "unaligned" := rec_bare ]}.

(** ** [load_jsonl]

    [str.strip] and [json.loads] belong to the runtime; [json_loads] is
    [None] where [json.loads] raises [JSONDecodeError].  The file is the list
    of the lines its iterator yields. *)

Class PyText : Type := {
  str_strip : string -> string;
  json_loads : string -> option json
}.

(** The body of [for line in f], on the list [rows] built so far. *)
Fixpoint load_loop {txt : PyText} (lines : list string) (rows : list json)
  : list json :=
  match lines with
  | [] => rows
  | line :: lines' =>
      let line := str_strip line in
      if decide (line = "") then load_loop lines' rows
      else match json_loads line with
           | Some v => load_loop lines' (rows ++ [v])
           | None => load_loop lines' rows
           end
  end.

Definition load_jsonl {txt : PyText} (lines : list string) : list json :=
  load_loop lines [].

(** ** Vocabulary of the scoring properties *)

(** The record's extracted finish reason is the string [tool_calls]. *)
Definition triggers (r : dict) : bool :=
  match extract_finish_reason r with
  | Ok fr => is_tool_calls fr
  | Raise _ => false
  end.

(** The index [m] holds, for [h], a record that triggers. *)
Definition triggered_at (m : gmap string dict) (h : string) : bool :=
  match m !! h with
  | Some r => triggers r
  | None => false
  end.

(** The index [m] holds, for [h], a record whose [tool_calls_valid] is
    truthy. *)
Definition valid_at (m : gmap string dict) (h : string) : bool :=
  match m !! h with
  | Some r => truthy (get_or r "tool_calls_valid" JNull)
  | None => false
  end.

(** Both indices hold a record for [h] and the extractor returns on both. *)
Definition scorable (ours_map off_map : gmap string dict) (h : string)
  : Prop :=
  exists ours off fr_ours fr_off,
    ours_map !! h = Some ours /\ off_map !! h = Some off
    /\ extract_finish_reason ours = Ok fr_ours
    /\ extract_finish_reason off = Ok fr_off.

(** The number of elements of [hs] that satisfy [p]. *)
Definition count_where (p : string -> bool) (hs : list string) : nat :=
  length (filter (fun h => p h) hs).

(** A runtime for the samples: nothing is stripped, and the only text that
    decodes is the empty object. *)
Definition sample_text : PyText :=
  {| str_strip := fun s => s;
     json_loads := fun s => if decide (s = "{}") then Some (JObj []) else None |}.

(** A record whose [request] is not a dict. *)
Definition rec_null_request : dict := [("request", JNull)].

(** * Properties *)

(** ** The finish-reason extractor *)

Lemma get_or_None (d : dict) k dflt :
  dict_get d k = None -> get_or d k dflt = dflt.
Proof. unfold get_or. by intros ->. Qed.

Lemma get_or_Some (d : dict) k dflt v :
  dict_get d k = Some v -> get_or d k dflt = v.
Proof. unfold get_or. by intros ->. Qed.

Lemma extract_finish_reason_top entry :
  truthy (get_or entry "finish_reason" JNull) = true ->
  extract_finish_reason entry = Ok (get_or entry "finish_reason" JNull).
Proof. intros Htop. unfold extract_finish_reason. by rewrite Htop. Qed.

(** Once the top-level field is absent or falsy the extractor walks the
    nested shape, and raises where it cannot. *)
Lemma extract_finish_reason_nested entry :
  truthy (get_or entry "finish_reason" JNull) = false ->
  extract_finish_reason entry =
  if nested_shape_ok entry then Ok (nested_finish_reason_spec entry)
  else Raise AttributeError.
Proof.
  intros Htop. unfold extract_finish_reason. rewrite Htop.
  unfold nested_shape_ok, nested_finish_reason_spec, get_or.
  destruct (dict_get entry "response") as [resp|]; simpl; [|done].
  destruct resp as [| b | n | f | s | xs | resp]; simpl; try done.
  - by destruct b.
  - by destruct n.
  - by destruct f.
  - by destruct s.
  - by destruct xs.
  - destruct resp as [|kv resp]; [done|].
    change (py_or (JObj (kv :: resp)) (JObj [])) with (JObj (kv :: resp)).
    cbn [attr_get bind]. unfold get_or.
    destruct (dict_get (kv :: resp) "choices") as [c|]; simpl; [|done].
    destruct c as [| b | n | f | s | xs | kvs]; simpl; try done.
    + by destruct b.
    + by destruct n.
    + by destruct f.
    + by destruct s.
    + destruct xs as [|c0 xs]; simpl; [done|].
      destruct c0 as [| b | n | f | s | ys | ch0]; simpl; try done.
      * by destruct b.
      * by destruct n.
      * by destruct f.
      * by destruct s.
      * by destruct ys.
      * destruct ch0 as [|kv0 ch0]; [done|].
        change (py_or (JObj (kv0 :: ch0)) (JObj []))
          with (JObj (kv0 :: ch0)).
        cbn [attr_get bind]. unfold get_or.
        destruct (dict_get (kv0 :: ch0) "finish_reason") as [fr|]; simpl;
          [|done].
        by destruct (truthy fr).
    + by destruct kvs.
Qed.

Lemma extract_finish_reason_exn entry e :
  extract_finish_reason entry = Raise e -> e = AttributeError.
Proof.
  destruct (truthy (get_or entry "finish_reason" JNull)) eqn:Htop.
  - by rewrite extract_finish_reason_top.
  - rewrite extract_finish_reason_nested by done.
    destruct (nested_shape_ok entry); congruence.
Qed.

Lemma extract_finish_reason_extractable entry :
  extractable entry = true -> exists fr, extract_finish_reason entry = Ok fr.
Proof.
  unfold extractable.
  destruct (truthy (get_or entry "finish_reason" JNull)) eqn:Htop; simpl.
  - intros _. rewrite extract_finish_reason_top by done. by eexists.
  - intros Hshape. rewrite extract_finish_reason_nested, Hshape by done.
    by eexists.
Qed.



(** C10: a record is triggered only when the extracted finish reason is the
    string [tool_calls]; an absent finish reason, any other string and any
    value that is not a string all classify as not triggered. *)
Theorem triggered_only_on_tool_calls (entry : dict) (fr : json) :
  extract_finish_reason entry = Ok fr ->
  (is_tool_calls fr = true <-> fr = JStr "tool_calls")
  /\ (fr = JNull -> is_tool_calls fr = false)
  /\ (forall s, fr = JStr s -> s <> "tool_calls" -> is_tool_calls fr = false)
  /\ (isinstance_str fr = false -> is_tool_calls fr = false).
Proof.
  intros _. unfold is_tool_calls. repeat split.
  - destruct fr; simpl; try done. intros ?%bool_decide_eq_true. by subst.
  - by intros ->.
  - by intros ->.
  - intros s -> Hs. simpl. by rewrite bool_decide_eq_false.
  - by intros ->.
Qed.

(** A number stored in [finish_reason] is extracted and does not trigger. *)
Lemma triggered_only_on_tool_calls_witness :
  extract_finish_reason [("finish_reason", JInt 7)] = Ok (JInt 7)
  /\ is_tool_calls (JInt 7) = false.
Proof.
  split; [reflexivity|].
  apply (triggered_only_on_tool_calls [("finish_reason", JInt 7)] (JInt 7));
    reflexivity.
Defined.

(** ** The derived ratios *)

Lemma int_truediv_pos a b :
  (0 < b)%Z ->
  int_truediv a b = Ok (SFdiv prec emax (float_of_int a) (float_of_int b)).
Proof.
  intros Hb. unfold int_truediv.
  destruct (Z.eqb_spec b 0) as [->|_]; [lia|done].
Qed.

Lemma guarded_ratio_ok a (n : nat) :
  exists x, (if (0 <? Z.of_nat n)%Z then int_truediv a (Z.of_nat n)
             else Ok float_zero) = Ok x.
Proof.
  destruct (Z.ltb_spec 0 (Z.of_nat n)) as [Hpos|_]; [|by eexists].
  rewrite int_truediv_pos by done. by eexists.
Qed.

Lemma float_eq_zero_not_pos x :
  SFeqb x float_zero = true -> float_pos x = false.
Proof. by destruct x as [[]| [] | | [] ? ?]. Qed.

Lemma float_pos_not_zero x :
  float_pos x = true -> SFeqb x float_zero = false.
Proof. by destruct x as [[]| [] | | [] ? ?]. Qed.

Lemma f1_of_ok p r : exists x, f1_of p r = Ok x.
Proof.
  unfold f1_of, float_truediv.
  destruct (float_pos (SFadd prec emax p r)) eqn:Hpos; [|by eexists].
  rewrite (float_pos_not_zero _ Hpos). by eexists.
Qed.

Lemma ratios_ok c : exists r, ratios c = Ok r.
Proof.
  unfold ratios, precision_of, recall_of, schema_accuracy_of.
  destruct (guarded_ratio_ok (Z.of_nat (TP c)) (TP c + FP c)) as [p ->].
  destruct (guarded_ratio_ok (Z.of_nat (TP c)) (TP c + FN c)) as [r ->].
  simpl. destruct (f1_of_ok p r) as [f ->]. simpl.
  destruct (guarded_ratio_ok (Z.of_nat (count_successful_tool_call c))
              (count_finish_reason_tool_calls c)) as [a ->].
  by eexists.
Qed.

(** C3: each derived ratio is exactly 0.0 when its denominator is zero, the
    ratios never raise, and with no aligned record all four are 0.0. *)
Theorem zero_division_policy :
  (forall tp fp, tp + fp = 0 -> precision_of tp fp = Ok float_zero)
  /\ (forall tp fn, tp + fn = 0 -> recall_of tp fn = Ok float_zero)
  /\ (forall p r, SFeqb (SFadd prec emax p r) float_zero = true ->
        f1_of p r = Ok float_zero)
  /\ (forall successful, schema_accuracy_of successful 0 = Ok float_zero)
  /\ (forall c, exists r, ratios c = Ok r)
  /\ (forall ours_map off_map,
        (c <- classify_loop ours_map off_map [] counters_zero ;; ratios c)
        = Ok (float_zero, float_zero, float_zero, float_zero)).
Proof.
  split; [|split; [|split; [|split; [|split]]]].
  - intros tp fp Hz. unfold precision_of. by rewrite Hz.
  - intros tp fn Hz. unfold recall_of. by rewrite Hz.
  - intros p r Hz. unfold f1_of. by rewrite (float_eq_zero_not_pos _ Hz).
  - done.
  - apply ratios_ok.
  - done.
Qed.

(** The three guarded ratios on counters that are all zero. *)
Lemma zero_division_policy_witness :
  precision_of 0 0 = Ok float_zero
  /\ recall_of 0 0 = Ok float_zero
  /\ f1_of float_zero float_zero = Ok float_zero.
Proof.
  destruct zero_division_policy as (Hp & Hr & Hf & _).
  split; [apply Hp; reflexivity|].
  split; [apply Hr; reflexivity|apply Hf; reflexivity].
Defined.

(** ** The classification loop *)

Lemma bind_Ok {A B} (r : result A) (k : A -> result B) b :
  bind r k = Ok b -> exists a, r = Ok a /\ k a = Ok b.
Proof. destruct r as [a|e]; simpl; [eauto|done]. Qed.

Lemma map_item_Ok m h r : map_item m h = Ok r <-> m !! h = Some r.
Proof. unfold map_item. destruct (m !! h); split; congruence. Qed.

Lemma classify_step_Ok ours_map off_map c h c' :
  classify_step ours_map off_map c h = Ok c' ->
  exists ours off fr_ours fr_off,
    ours_map !! h = Some ours /\ off_map !! h = Some off
    /\ extract_finish_reason ours = Ok fr_ours
    /\ extract_finish_reason off = Ok fr_off
    /\ c' = bump_schema (is_tool_calls fr_ours)
              (truthy (get_or ours "tool_calls_valid" JNull))
              (bump_matrix (is_tool_calls fr_ours) (is_tool_calls fr_off) c).
Proof.
  unfold classify_step.
  intros (ours & Hours%map_item_Ok & H1)%bind_Ok.
  apply bind_Ok in H1 as (off & Hoff%map_item_Ok & H2).
  apply bind_Ok in H2 as (fr_ours & Hfo & H3).
  apply bind_Ok in H3 as (fr_off & Hff & H4).
  exists ours, off, fr_ours, fr_off. repeat split; try done. congruence.
Qed.

Lemma bump_exactly_one o f v c :
  exactly_one_incremented c (bump_schema o v (bump_matrix o f c)).
Proof.
  unfold exactly_one_incremented.
  destruct o, f, v; simpl; intuition.
Qed.

Lemma bump_schema_invariant o f v c :
  count_finish_reason_tool_calls c = TP c + FP c ->
  count_successful_tool_call c <= count_finish_reason_tool_calls c ->
  let c' := bump_schema o v (bump_matrix o f c) in
  count_finish_reason_tool_calls c' = TP c' + FP c'
  /\ count_successful_tool_call c' <= count_finish_reason_tool_calls c'.
Proof. destruct o, f, v; simpl; lia. Qed.

Lemma classify_loop_schema_invariant ours_map off_map hs c c' :
  classify_loop ours_map off_map hs c = Ok c' ->
  count_finish_reason_tool_calls c = TP c + FP c ->
  count_successful_tool_call c <= count_finish_reason_tool_calls c ->
  count_finish_reason_tool_calls c' = TP c' + FP c'
  /\ count_successful_tool_call c' <= count_finish_reason_tool_calls c'.
Proof.
  revert c. induction hs as [|h hs IH]; intros c; simpl.
  - intros [= <-]. done.
  - intros (c1 & Hstep & Hrest)%bind_Ok Heq Hle.
    apply classify_step_Ok in Hstep as (? & ? & fo & ff & _ & _ & _ & _ & ->).
    apply (IH _ Hrest); by apply bump_schema_invariant.
Qed.

Lemma classify_loop_total_count ours_map off_map hs c c' :
  classify_loop ours_map off_map hs c = Ok c' ->
  TP c' + FP c' + FN c' + TN c' = TP c + FP c + FN c + TN c + length hs.
Proof.
  revert c. induction hs as [|h hs IH]; intros c; simpl.
  - intros [= <-]. lia.
  - intros (c1 & Hstep & Hrest)%bind_Ok.
    apply classify_step_Ok in Hstep as (o & ? & fo & ff & _ & _ & _ & _ & ->).
    rewrite (IH _ Hrest).
    pose proof (bump_exactly_one (is_tool_calls fo) (is_tool_calls ff)
      (truthy (get_or o "tool_calls_valid" JNull)) c) as Hone.
    unfold exactly_one_incremented in Hone. lia.
Qed.

(** The loop returns when every record it visits is one the extractor
    returns on. *)
Lemma classify_loop_returns ours_map off_map hs c :
  (forall h, h ∈ hs -> exists ours off,
      ours_map !! h = Some ours /\ off_map !! h = Some off
      /\ extractable ours = true /\ extractable off = true) ->
  exists c', classify_loop ours_map off_map hs c = Ok c'.
Proof.
  revert c. induction hs as [|h hs IH]; intros c Hall; simpl; [by eexists|].
  destruct (Hall h) as (ours & off & Ho & Hf & Heo & Hef); [by left|].
  unfold classify_step, map_item. rewrite Ho, Hf. simpl.
  destruct (extract_finish_reason_extractable _ Heo) as [fo ->].
  destruct (extract_finish_reason_extractable _ Hef) as [ff ->]. simpl.
  apply IH. intros k Hk. apply Hall. by right.
Qed.

(** C9: after the loop the candidate-triggered counter equals TP + FP, and
    the successful-tool-call counter does not exceed it. *)
Theorem schema_counters_invariant ours_map off_map hs c :
  classify_loop ours_map off_map hs counters_zero = Ok c ->
  count_finish_reason_tool_calls c = TP c + FP c
  /\ count_successful_tool_call c <= count_finish_reason_tool_calls c.
Proof.
  intros Hloop.
  apply (classify_loop_schema_invariant _ _ _ _ _ Hloop); simpl; lia.
Qed.

(** One aligned pair, triggered and valid on the candidate side only. *)
Lemma schema_counters_invariant_witness :
  classify_loop ours_sample off_sample (aligned ours_sample off_sample)
    counters_zero = Ok (Counters 0 1 0 0 1 1)
  /\ 1 = 0 + 1 /\ 1 <= 1.
Proof.
  split; [vm_compute; reflexivity|].
  apply (schema_counters_invariant ours_sample off_sample
           (aligned ours_sample off_sample) (Counters 0 1 0 0 1 1)).
  vm_compute. reflexivity.
Defined.

(** ** The aligned fingerprints *)

Lemma elem_of_aligned ours_map off_map h :
  h ∈ aligned ours_map off_map <-> h ∈ dom ours_map /\ h ∈ dom off_map.
Proof.
  unfold aligned.
  by rewrite merge_sort_Permutation, elem_of_elements, elem_of_intersection.
Qed.

Lemma NoDup_aligned ours_map off_map : NoDup (aligned ours_map off_map).
Proof.
  unfold aligned. rewrite merge_sort_Permutation. apply NoDup_elements.
Qed.

Lemma length_aligned ours_map off_map :
  length (aligned ours_map off_map) = size (dom ours_map ∩ dom off_map).
Proof. unfold aligned. by rewrite merge_sort_Permutation. Qed.

Lemma aligned_delete_unaligned ours_map off_map h :
  ¬ (h ∈ dom ours_map /\ h ∈ dom off_map) ->
  aligned (delete h ours_map) (delete h off_map) = aligned ours_map off_map.
Proof.
  intros Hno. unfold aligned. rewrite !dom_delete_L.
  assert ((dom ours_map ∖ {[h]}) ∩ (dom off_map ∖ {[h]})
          = dom ours_map ∩ dom off_map) as ->; [|done].
  apply set_eq. intros k.
  rewrite !elem_of_intersection, !elem_of_difference, !elem_of_singleton.
  split; [tauto|]. intros [Ho Hf]. repeat split; auto; intros ->; tauto.
Qed.

Lemma classify_loop_delete ours_map off_map h hs c :
  h ∉ hs ->
  classify_loop (delete h ours_map) (delete h off_map) hs c
  = classify_loop ours_map off_map hs c.
Proof.
  revert c. induction hs as [|k hs IH]; intros c Hnotin; [done|].
  apply not_elem_of_cons in Hnotin as [Hne Hnotin]. simpl.
  assert (classify_step (delete h ours_map) (delete h off_map) c k
          = classify_step ours_map off_map c k) as ->.
  { unfold classify_step, map_item. by rewrite !lookup_delete_ne. }
  destruct (classify_step ours_map off_map c k); simpl; auto.
Qed.

(** C2: the loop visits exactly the fingerprints present in both indices,
    each once; every visit increments exactly one of TP, FP, FN, TN; the loop
    returns when the extractor returns on the aligned records, and after it
    the four counters add up to the size of the aligned set; a fingerprint
    that is not in both indices increments nothing: the loop is the one
    obtained with that fingerprint deleted from the indices. *)
Theorem confusion_matrix_complete (ours_map off_map : gmap string dict) :
  (forall h, h ∈ aligned ours_map off_map
             <-> h ∈ dom ours_map /\ h ∈ dom off_map)
  /\ NoDup (aligned ours_map off_map)
  /\ (forall c h c', classify_step ours_map off_map c h = Ok c' ->
        exactly_one_incremented c c')
  /\ ((forall h ours off,
         ours_map !! h = Some ours -> off_map !! h = Some off ->
         extractable ours = true /\ extractable off = true) ->
      exists c, classify_loop ours_map off_map (aligned ours_map off_map)
                  counters_zero = Ok c)
  /\ (forall c,
        classify_loop ours_map off_map (aligned ours_map off_map)
          counters_zero = Ok c ->
        TP c + FP c + FN c + TN c = length (aligned ours_map off_map)
        /\ length (aligned ours_map off_map)
           = size (dom ours_map ∩ dom off_map))
  /\ (forall h, ¬ (h ∈ dom ours_map /\ h ∈ dom off_map) ->
        classify_loop (delete h ours_map) (delete h off_map)
          (aligned (delete h ours_map) (delete h off_map)) counters_zero
        = classify_loop ours_map off_map (aligned ours_map off_map)
            counters_zero).
Proof.
  split; [apply elem_of_aligned|].
  split; [apply NoDup_aligned|].
  split.
  { intros c h c' (? & ? & ? & ? & _ & _ & _ & _ & ->)%classify_step_Ok.
    apply bump_exactly_one. }
  split.
  { intros Hall. apply classify_loop_returns.
    intros h [[ours Ho]%elem_of_dom [off Hf]%elem_of_dom]%elem_of_aligned.
    exists ours, off. destruct (Hall h ours off Ho Hf). done. }
  split.
  { intros c Hloop. split; [|apply length_aligned].
    rewrite (classify_loop_total_count _ _ _ _ _ Hloop). simpl. lia. }
  intros h Hno. rewrite aligned_delete_unaligned by done.
  apply classify_loop_delete. by rewrite elem_of_aligned.
Qed.

(** One aligned pair and one fingerprint on the reference side only. *)
Lemma confusion_matrix_complete_witness :
  classify_loop ours_sample off_sample (aligned ours_sample off_sample)
    counters_zero = Ok (Counters 0 1 0 0 1 1)
  /\ 0 + 1 + 0 + 0 = length (aligned ours_sample off_sample)
  /\ classify_loop (delete "unaligned" ours_sample)
       (delete "unaligned" off_sample)
       (aligned (delete "unaligned" ours_sample)
          (delete "unaligned" off_sample)) counters_zero
     = classify_loop ours_sample off_sample
         (aligned ours_sample off_sample) counters_zero.
Proof.
  destruct (confusion_matrix_complete ours_sample off_sample)
    as (_ & _ & _ & _ & Hsum & Hdel).
  split; [vm_compute; reflexivity|].
  split.
  - apply (Hsum (Counters 0 1 0 0 1 1)). vm_compute. reflexivity.
  - apply Hdel. intros [[x Hx]%elem_of_dom _]. vm_compute in Hx.
    discriminate Hx.
Defined.

(** ** The alignment index *)

Section IndexProperties.
Context {lib : PyLib}.

Lemma compute_messages_hash_request entry :
  compute_messages_hash entry =
  match get_or entry "request" (JObj []) with
  | JObj req =>
      Ok (md5_hexdigest (json_dumps (JObj
        [("messages", get_or req "messages" (JArr []));
         ("tools", get_or req "tools" JNull);
         ("tool_choice", get_or req "tool_choice" JNull)])))
  | _ => Raise AttributeError
  end.
Proof.
  unfold compute_messages_hash.
  by destruct (get_or entry "request" (JObj [])).
Qed.

Lemma compute_messages_hash_ok entry :
  request_ok entry = true -> exists h, compute_messages_hash entry = Ok h.
Proof.
  rewrite compute_messages_hash_request. unfold request_ok.
  destruct (get_or entry "request" (JObj [])); try done. by eexists.
Qed.

Lemma build_step_Ok st r st' :
  build_step st r = Ok st' ->
  exists h, compute_messages_hash r = Ok h
    /\ ((h ∈ dom st.1 /\ st' = (st.1, S st.2))
        \/ ((h ∉ dom st.1) /\ st' = (<[h := r]> st.1, st.2))).
Proof.
  unfold build_step. intros (h & Hh & Hst)%bind_Ok. exists h. split; [done|].
  destruct (decide (h ∈ dom st.1)); injection Hst as <-; auto.
Qed.

Lemma build_step_size st r st' :
  build_step st r = Ok st' -> size st'.1 + st'.2 = S (size st.1 + st.2).
Proof.
  intros (h & _ & [[_ ->] | [Hnot ->]])%build_step_Ok; simpl; [lia|].
  rewrite map_size_insert_None; [lia|]. by apply not_elem_of_dom.
Qed.

Lemma build_loop_size rows st st' :
  build_loop rows st = Ok st' ->
  size st'.1 + st'.2 = size st.1 + st.2 + length rows.
Proof.
  revert st. induction rows as [|r rows IH]; intros st; simpl.
  - intros [= <-]. lia.
  - intros (st1 & Hstep%build_step_size & Hrest%IH)%bind_Ok. lia.
Qed.

Lemma build_loop_returns rows st :
  Forall (fun r => request_ok r = true) rows ->
  exists st', build_loop rows st = Ok st'.
Proof.
  intros Hok. revert st. induction Hok as [|r rows Hr _ IH]; intros st; simpl.
  - by eexists.
  - unfold build_step. destruct (compute_messages_hash_ok r Hr) as [h ->].
    simpl. destruct (decide (h ∈ dom st.1)); simpl; apply IH.
Qed.


Lemma build_loop_app rows1 rows2 st :
  build_loop (rows1 ++ rows2) st
  = (st' <- build_loop rows1 st ;; build_loop rows2 st').
Proof.
  revert st. induction rows1 as [|r rows1 IH]; intros st; simpl; [done|].
  destruct (build_step st r); simpl; auto.
Qed.

Lemma later_duplicate_app_l rows r i :
  i < length rows ->
  later_duplicate (rows ++ [r]) i = later_duplicate rows i.
Proof.
  intros Hi. unfold later_duplicate.
  rewrite lookup_app_l by done. rewrite take_app_le by lia. done.
Qed.

Lemma later_duplicate_last rows r :
  later_duplicate (rows ++ [r]) (length rows)
  = bool_decide (compute_messages_hash r ∈ compute_messages_hash <$> rows).
Proof.
  unfold later_duplicate.
  rewrite list_lookup_middle by done. by rewrite take_app_length.
Qed.

Lemma filter_ext_elem {A} (P Q : A -> Prop)
    `{forall x, Decision (P x)} `{forall x, Decision (Q x)} (l : list A) :
  (forall x, x ∈ l -> P x <-> Q x) -> filter P l = filter Q l.
Proof.
  induction l as [|x l IH]; intros Hpq; [done|].
  rewrite !filter_cons.
  rewrite IH by (intros y Hy; apply Hpq; by right).
  destruct (decide (P x)) as [Hp|Hp], (decide (Q x)) as [Hq|Hq]; try done.
  - destruct Hq. apply Hpq; [by left|done].
  - destruct Hp. apply Hpq; [by left|done].
Qed.

Lemma filter_later_duplicate_app rows r :
  filter (fun i => later_duplicate (rows ++ [r]) i) (seq 0 (length rows))
  = filter (fun i => later_duplicate rows i) (seq 0 (length rows)).
Proof.
  apply filter_ext_elem. intros i Hi%elem_of_seq.
  rewrite later_duplicate_app_l by lia. done.
Qed.

(** A first occurrence among [rows] stays one when a record is appended. *)
Lemma first_with_hash_app_l rows r h i x :
  i < length rows ->
  first_with_hash (rows ++ [r]) h i x <-> first_with_hash rows h i x.
Proof.
  intros Hi. unfold first_with_hash. rewrite lookup_app_l by done. split.
  - intros (Hx & Hhx & Hmin). repeat split; try done.
    intros j r' Hj Hr'. apply (Hmin j r' Hj).
    rewrite lookup_app_l by lia. done.
  - intros (Hx & Hhx & Hmin). repeat split; try done.
    intros j r' Hj Hr'. apply (Hmin j r' Hj).
    rewrite lookup_app_l in Hr' by lia. done.
Qed.

(** A first occurrence in [rows ++ [r]] is one of [rows], or it is [r] and
    no record of [rows] has its fingerprint. *)
Lemma first_with_hash_app_inv rows r h i x :
  first_with_hash (rows ++ [r]) h i x ->
  i < length rows
  \/ (i = length rows /\ x = r /\ compute_messages_hash r = Ok h
      /\ forall y, y ∈ rows -> compute_messages_hash y <> Ok h).
Proof.
  intros (Hx & Hhx & Hmin).
  destruct (decide (i < length rows)) as [|Hge]; [by left|right].
  apply lookup_lt_Some in Hx as Hlt. rewrite length_app in Hlt.
  simpl in Hlt. assert (i = length rows) as -> by lia.
  rewrite list_lookup_middle in Hx by done. injection Hx as <-.
  repeat split; try done.
  intros y [j Hj]%list_elem_of_lookup. apply (Hmin j y).
  - by eapply lookup_lt_Some.
  - rewrite lookup_app_l; [done|by eapply lookup_lt_Some].
Qed.

(** The state of the builder after [rows]: the keys are the fingerprints
    seen, each bound to the first record that carries it, and the counter
    holds the number of later records. *)
Lemma build_map_invariant rows m d :
  build_map_by_messages_hash rows = Ok (m, d) ->
  (forall h, h ∈ dom m
     <-> exists r, r ∈ rows /\ compute_messages_hash r = Ok h)
  /\ (forall h r, m !! h = Some r <-> exists i, first_with_hash rows h i r)
  /\ d = length (filter (fun i => later_duplicate rows i)
                   (seq 0 (length rows))).
Proof.
  unfold build_map_by_messages_hash. revert m d.
  induction rows as [|r rows IH] using rev_ind; intros m' d'.
  { intros [= <- <-]. split; [|split]; [| |done].
    - intros h. rewrite dom_empty_L. split; [set_solver|].
      intros (r & Hr & _). by apply elem_of_nil in Hr.
    - intros h r. rewrite lookup_empty. split; [done|].
      intros (i & Hi & _). by rewrite lookup_nil in Hi. }
  rewrite build_loop_app. intros ([m d] & Hrows & Hlast)%bind_Ok.
  destruct (IH m d Hrows) as (Hdom & Hfirst & Hd). clear IH Hrows.
  simpl in Hlast. apply bind_Ok in Hlast as (st1 & Hstep & [= ->]).
  apply build_step_Ok in Hstep as (h0 & Hh0 & Hcase). simpl in Hcase.
  assert (Hseen : h0 ∈ dom m <->
            compute_messages_hash r ∈ compute_messages_hash <$> rows).
  { rewrite Hdom, Hh0, list_elem_of_fmap. split.
    - intros (x & Hx & Hhx). eauto.
    - intros (x & Hhx & Hx). eauto. }
  rewrite length_app, Nat.add_1_r, seq_S, filter_app, length_app. simpl.
  rewrite filter_later_duplicate_app, <- Hd.
  destruct Hcase as [[Hin [= -> ->]] | [Hnot [= -> ->]]].
  - split; [|split].
    + intros h. rewrite Hdom. split.
      * intros (x & Hx & Hhx). exists x. split; [|done].
        apply elem_of_app. by left.
      * intros (x & [Hx | ->%list_elem_of_singleton]%elem_of_app & Hhx);
          [by eauto|].
        apply Hdom. by assert (h = h0) as -> by congruence.
    + intros h x. rewrite Hfirst. split.
      * intros (i & Hi). exists i. apply first_with_hash_app_l; [|done].
        destruct Hi as (Hi & _). by eapply lookup_lt_Some.
      * intros (i & Hi). exists i.
        destruct (first_with_hash_app_inv _ _ _ _ _ Hi)
          as [Hlt | (_ & _ & Hh & Hno)].
        -- exact (proj1 (first_with_hash_app_l _ _ _ _ _ Hlt) Hi).
        -- apply Hdom in Hin as (y & Hy & Hhy).
           destruct (Hno y Hy). congruence.
    + rewrite filter_cons_True, filter_nil; [simpl; lia|].
      rewrite later_duplicate_last. apply bool_decide_pack. by apply Hseen.
  - split; [|split].
    + intros h. rewrite dom_insert_L, elem_of_union, elem_of_singleton, Hdom.
      split.
      * intros [-> | (x & Hx & Hhx)].
        -- exists r. split; [|done]. apply elem_of_app. right.
           by apply list_elem_of_singleton.
        -- exists x. split; [|done]. apply elem_of_app. by left.
      * intros (x & [Hx | ->%list_elem_of_singleton]%elem_of_app & Hhx).
        -- right. eauto.
        -- left. congruence.
    + intros h x. destruct (decide (h = h0)) as [-> | Hne].
      * rewrite lookup_insert_eq. split.
        -- intros [= <-]. exists (length rows). repeat split.
           ++ by rewrite list_lookup_middle.
           ++ done.
           ++ intros j r' Hj Hr' Hhr'. apply Hnot, Hdom. exists r'.
              split; [|done]. rewrite lookup_app_l in Hr' by done.
              by eapply list_elem_of_lookup_2.
        -- intros (i & Hi).
           destruct (first_with_hash_app_inv _ _ _ _ _ Hi)
             as [Hlt | (_ & -> & _)]; [|done].
           exfalso. apply Hnot. apply elem_of_dom. exists x.
           apply Hfirst. exists i. exact (proj1 (first_with_hash_app_l _ _ _ _ _ Hlt) Hi).
      * rewrite lookup_insert_ne by done. rewrite Hfirst. split.
        -- intros (i & Hi). exists i. apply first_with_hash_app_l; [|done].
           destruct Hi as (Hi & _). by eapply lookup_lt_Some.
        -- intros (i & Hi). exists i.
           destruct (first_with_hash_app_inv _ _ _ _ _ Hi)
             as [Hlt | (_ & _ & Hh & _)].
           ++ exact (proj1 (first_with_hash_app_l _ _ _ _ _ Hlt) Hi).
           ++ congruence.
    + rewrite filter_cons_False, filter_nil; [simpl; lia|].
      rewrite later_duplicate_last. intros Hdup%bool_decide_unpack.
      by apply Hnot, Hseen.
Qed.

(** C5: the index binds every fingerprint that occurs in the input to the
    first record carrying it and binds nothing else, and the duplicate count
    is the number of records whose fingerprint an earlier record has. *)
Theorem first_occurrence_wins (rows : list dict) m d :
  build_map_by_messages_hash rows = Ok (m, d) ->
  (forall h r, r ∈ rows -> compute_messages_hash r = Ok h ->
     exists i r1, first_with_hash rows h i r1 /\ m !! h = Some r1)
  /\ (forall h r1, m !! h = Some r1 <-> exists i, first_with_hash rows h i r1)
  /\ d = length (filter (fun i => later_duplicate rows i)
                   (seq 0 (length rows))).
Proof.
  intros Hb.
  destruct (build_map_invariant rows m d Hb) as (Hdom & Hfirst & Hd).
  split; [|by split].
  intros h r Hr Hh.
  assert (h ∈ dom m) as [r1 Hr1]%elem_of_dom by (apply Hdom; eauto).
  destruct (proj1 (Hfirst h r1) Hr1) as [i Hi]. eauto.
Qed.

End IndexProperties.


(** Two rows with the same request: the first is kept, the second counted. *)
Lemma first_occurrence_wins_witness :
  @build_map_by_messages_hash sample_lib [rec_tool; rec_stop]
    = Ok ({[ h_hi := rec_tool ]}, 1)
  /\ (exists i, @first_with_hash sample_lib [rec_tool; rec_stop] h_hi i
                  rec_tool)
  /\ 1 = length (filter
                   (fun i => @later_duplicate sample_lib
                               [rec_tool; rec_stop] i) (seq 0 2)).
Proof.
  split; [vm_compute; reflexivity|].
  destruct (@first_occurrence_wins sample_lib [rec_tool; rec_stop]
              {[ h_hi := rec_tool ]} 1) as (_ & Hfirst & Hd).
  { vm_compute. reflexivity. }
  split; [|exact Hd].
  apply Hfirst. vm_compute. reflexivity.
Defined.

(** ** Order of processing *)

Lemma bump_comm o1 f1 v1 o2 f2 v2 c :
  bump_schema o1 v1 (bump_matrix o1 f1
    (bump_schema o2 v2 (bump_matrix o2 f2 c)))
  = bump_schema o2 v2 (bump_matrix o2 f2
      (bump_schema o1 v1 (bump_matrix o1 f1 c))).
Proof. destruct c, o1, f1, v1, o2, f2, v2; reflexivity. Qed.

(** On a fingerprint of both indices the body of the loop either raises
    [AttributeError] or applies the increments its two records determine. *)
Lemma classify_step_aligned ours_map off_map h :
  h ∈ dom ours_map -> h ∈ dom off_map ->
  (forall c, classify_step ours_map off_map c h = Raise AttributeError)
  \/ (exists o f v, forall c,
        classify_step ours_map off_map c h
        = Ok (bump_schema o v (bump_matrix o f c))).
Proof.
  intros [ours Hours]%elem_of_dom [off Hoff]%elem_of_dom.
  unfold classify_step, map_item. rewrite Hours, Hoff. simpl.
  destruct (extract_finish_reason ours) as [fo|e] eqn:Ho; simpl.
  2:{ left. intros _. by rewrite (extract_finish_reason_exn _ _ Ho). }
  destruct (extract_finish_reason off) as [ff|e] eqn:Hf; simpl.
  2:{ left. intros _. by rewrite (extract_finish_reason_exn _ _ Hf). }
  right. by eexists _, _, _.
Qed.

Lemma classify_step_swap ours_map off_map h1 h2 c :
  h1 ∈ dom ours_map -> h1 ∈ dom off_map ->
  h2 ∈ dom ours_map -> h2 ∈ dom off_map ->
  (c1 <- classify_step ours_map off_map c h1 ;;
   classify_step ours_map off_map c1 h2)
  = (c2 <- classify_step ours_map off_map c h2 ;;
     classify_step ours_map off_map c2 h1).
Proof.
  intros Ho1 Hf1 Ho2 Hf2.
  destruct (classify_step_aligned ours_map off_map h1 Ho1 Hf1)
    as [E1 | (o1 & f1 & v1 & E1)],
    (classify_step_aligned ours_map off_map h2 Ho2 Hf2)
    as [E2 | (o2 & f2 & v2 & E2)];
    rewrite ?E1, ?E2; simpl; rewrite ?E1, ?E2; try done.
  by rewrite bump_comm.
Qed.

Lemma classify_loop_Permutation ours_map off_map hs hs' :
  hs ≡ₚ hs' ->
  (forall h, h ∈ hs -> h ∈ dom ours_map /\ h ∈ dom off_map) ->
  forall c, classify_loop ours_map off_map hs c
            = classify_loop ours_map off_map hs' c.
Proof.
  induction 1 as [|x l l' Hperm IH|x y l|l l' l'' Hp1 IH1 Hp2 IH2];
    intros Hdom c.
  - done.
  - simpl. destruct (classify_step ours_map off_map c x); simpl; [|done].
    apply IH. intros h Hh. apply Hdom. by right.
  - destruct (Hdom x) as [Hox Hfx]; [by right; left|].
    destruct (Hdom y) as [Hoy Hfy]; [by left|].
    pose proof (classify_step_swap ours_map off_map y x c Hoy Hfy Hox Hfx)
      as Hswap.
    simpl.
    destruct (classify_step ours_map off_map c y) as [cy|ey] eqn:Ey,
      (classify_step ours_map off_map c x) as [cx|ex] eqn:Ex;
      simpl in *.
    + destruct (classify_step ours_map off_map cy x),
        (classify_step ours_map off_map cx y); simpl; congruence.
    + destruct (classify_step ours_map off_map cy x); simpl; congruence.
    + destruct (classify_step ours_map off_map cx y); simpl; congruence.
    + done.
  - rewrite IH1 by done. apply IH2.
    intros h Hh. apply Hdom. by rewrite Hp1.
Qed.

(** C8: processing the aligned fingerprints in any order gives what the
    ascending order gives: the same counters, hence the same summary with the
    same ratios. *)
Theorem summary_order_independent {lib : PyLib}
    (ours_map off_map : gmap string dict) (ours_dups off_dups : nat)
    (hs : list string) :
  hs ≡ₚ aligned ours_map off_map ->
  classify_loop ours_map off_map hs counters_zero
  = classify_loop ours_map off_map (aligned ours_map off_map) counters_zero
  /\ score_in_order ours_map off_map ours_dups off_dups hs
     = score_in_order ours_map off_map ours_dups off_dups
         (aligned ours_map off_map).
Proof.
  intros Hperm.
  assert (Hloop : classify_loop ours_map off_map hs counters_zero
    = classify_loop ours_map off_map (aligned ours_map off_map) counters_zero).
  { apply classify_loop_Permutation; [done|].
    intros h Hh. apply elem_of_aligned. by rewrite <- Hperm. }
  split; [done|].
  unfold score_in_order. by rewrite Hloop, (Permutation_length Hperm).
Qed.

(** Two aligned fingerprints, processed in descending order. *)
Lemma summary_order_independent_witness :
  let ours : gmap string dict := {[ "a" := rec_tool; "b" := rec_stop ]} in
  let off : gmap string dict := {[ "a" := rec_stop; "b" := rec_tool ]} in
  aligned ours off = ["a"; "b"]
  /\ @score_in_order sample_lib ours off 0 0 ["b"; "a"]
     = @score_in_order sample_lib ours off 0 0 (aligned ours off).
Proof.
  split; [vm_compute; reflexivity|].
  apply (@summary_order_independent sample_lib
           {[ "a" := rec_tool; "b" := rec_stop ]}
           {[ "a" := rec_stop; "b" := rec_tool ]} 0 0 ["b"; "a"]).
  assert (aligned ({[ "a" := rec_tool; "b" := rec_stop ]} : gmap string dict)
            {[ "a" := rec_stop; "b" := rec_tool ]} = ["a"; "b"]) as ->
    by (vm_compute; reflexivity).
  apply perm_swap.
Defined.

(** ** Canonical serialisation *)

(** Induction on a decoded value, with the hypothesis for every element of a
    list and every value of a dict. *)
Lemma json_ind (P : json -> Prop) :
  P JNull -> (forall b, P (JBool b)) -> (forall n, P (JInt n)) ->
  (forall f, P (JFloat f)) -> (forall s, P (JStr s)) ->
  (forall xs, Forall P xs -> P (JArr xs)) ->
  (forall kvs, Forall (fun kv => P kv.2) kvs -> P (JObj kvs)) ->
  forall v, P v.
Proof.
  intros Hnull Hbool Hint Hfloat Hstr Harr Hobj.
  fix IH 1. intros [| b | n | f | s | xs | kvs];
    [apply Hnull | apply Hbool | apply Hint | apply Hfloat | apply Hstr | |].
  - apply Harr. induction xs as [|x xs IHxs]; constructor; [apply IH|done].
  - apply Hobj.
    induction kvs as [|[k v] kvs IHkvs]; constructor; [apply IH|done].
Qed.

(** Every value is equal to itself as a logical value. *)
Lemma json_equiv_refl v : json_equiv v v.
Proof.
  induction v as [| b | n | f | s | xs IH | kvs IH] using json_ind;
    try by constructor.
  - apply equiv_arr. by apply Forall_Forall2_diag.
  - apply (equiv_obj _ kvs); [done|].
    apply Forall_Forall2_diag. eapply Forall_impl; [exact IH|]. by intros [k v].
Qed.

Global Instance key_le_trans {V} : Transitive (@key_le V).
Proof. intros a b c. unfold key_le. apply transitivity. Qed.

Global Instance key_le_total {V} : Total (@key_le V).
Proof. intros a b. unfold key_le. apply total, _. Qed.

Lemma NoDup_fst_inj {V} (l : list (string * V)) a b :
  NoDup l.*1 -> a ∈ l -> b ∈ l -> a.1 = b.1 -> a = b.
Proof.
  induction l as [|x l IH]; [by intros _ ?%elem_of_nil|].
  rewrite fmap_cons, NoDup_cons.
  intros [Hx Hnd] [-> | Ha]%elem_of_cons [-> | Hb]%elem_of_cons Hab; auto.
  - destruct Hx. rewrite Hab. by apply list_elem_of_fmap_2.
  - destruct Hx. rewrite <- Hab. by apply list_elem_of_fmap_2.
Qed.

(** Items with distinct keys have one sorted arrangement. *)
Lemma sorted_items_unique {V} (l1 l2 : list (string * V)) :
  NoDup l1.*1 -> Sorted key_le l1 -> Sorted key_le l2 -> l1 ≡ₚ l2 -> l1 = l2.
Proof.
  intros Hnd Hs1 Hs2 Hperm.
  apply (Sorted_unique_strong key_le); try done.
  intros a b Ha Hb Hab Hba. apply (NoDup_fst_inj l1); try done.
  - by rewrite Hperm.
  - unfold key_le in *. by apply (anti_symm String.le).
Qed.

Lemma sort_items_Permutation {V} (l1 l2 : list (string * V)) :
  NoDup l1.*1 -> l1 ≡ₚ l2 -> sort_items l1 = sort_items l2.
Proof.
  intros Hnd Hperm. unfold sort_items. apply sorted_items_unique.
  - by rewrite merge_sort_Permutation.
  - apply Sorted_merge_sort, _.
  - apply Sorted_merge_sort, _.
  - by rewrite !merge_sort_Permutation.
Qed.

(** Sorting the items and mapping their values commute. *)
Lemma sort_items_fmap {V W} (f : V -> W) (l : list (string * V)) :
  NoDup l.*1 ->
  sort_items ((fun kv => (kv.1, f kv.2)) <$> l)
  = (fun kv => (kv.1, f kv.2)) <$> sort_items l.
Proof.
  intros Hnd. unfold sort_items. apply sorted_items_unique.
  - rewrite merge_sort_Permutation, <- list_fmap_compose.
    by rewrite (list_fmap_ext _ fst l) by done.
  - apply Sorted_merge_sort, _.
  - apply (Sorted_fmap _ key_le key_le); [done|]. apply Sorted_merge_sort, _.
  - by rewrite !merge_sort_Permutation.
Qed.

Lemma keys_distinct_get (d : dict) k v :
  keys_distinct (JObj d) = true -> dict_get d k = Some v ->
  keys_distinct v = true.
Proof.
  simpl. intros [_ Hvals]%andb_true_iff.
  induction d as [|[k' v'] d IH]; simpl in *; [done|].
  apply andb_true_iff in Hvals as [Hv Hd].
  destruct (decide (k' = k)); [by intros [= <-]|auto].
Qed.

Lemma keys_distinct_get_or (d : dict) k dflt :
  keys_distinct (JObj d) = true -> keys_distinct dflt = true ->
  keys_distinct (get_or d k dflt) = true.
Proof.
  intros Hd Hdflt. unfold get_or.
  destruct (dict_get d k) eqn:Hget; simpl; [|done].
  by eapply keys_distinct_get.
Qed.

Lemma request_fields_distinct entry m t c :
  keys_distinct (JObj entry) = true ->
  request_fields entry = Some (m, t, c) ->
  keys_distinct m = true /\ keys_distinct t = true /\ keys_distinct c = true.
Proof.
  intros Hwf. unfold request_fields.
  pose proof (keys_distinct_get_or entry "request" (JObj []) Hwf eq_refl)
    as Hreq.
  destruct (get_or entry "request" (JObj [])) as [| | | | | |req]; try done.
  intros [= <- <- <-]. repeat split; by apply keys_distinct_get_or.
Qed.

Section Canonical.
Context {lib : PyLib}.

(** [json.dumps] puts the items of a dict in key order and then encodes
    them, as the encoder is written. *)
Lemma json_dumps_obj kvs :
  NoDup kvs.*1 ->
  json_dumps (JObj kvs)
  = "{" +:+ join ", "
      ((fun kv => encode_basestring kv.1 +:+ ": " +:+ json_dumps kv.2)
         <$> sort_items kvs) +:+ "}".
Proof.
  intros Hnd. simpl. rewrite (sort_items_fmap json_dumps) by done.
  by rewrite <- list_fmap_compose.
Qed.

(** Values that are equal as logical values serialise to the same text. *)
Lemma json_dumps_equiv a :
  keys_distinct a = true -> forall b, json_equiv a b ->
  json_dumps a = json_dumps b.
Proof.
  induction a as [| b | n | f | s | xs IH | kvs IH] using json_ind;
    intros Hwf c Hequiv; inversion Hequiv; subst; try done.
  - (* lists *)
    simpl. do 3 f_equal.
    simpl in Hwf. apply Is_true_true, forallb_True in Hwf. clear Hequiv.
    match goal with Hall : Forall2 json_equiv xs _ |- _ =>
      induction Hall as [|x y xs' ys' Hxy _ IHall]; [done|] end.
    apply Forall_cons in IH as [IHx IHxs], Hwf as [Hx Hxs].
    rewrite !fmap_cons. f_equal; [|by apply IHall].
    apply IHx; [by apply Is_true_true|done].
  - (* dicts *)
    simpl in Hwf. apply andb_true_iff in Hwf as [Hnd Hvals].
    apply bool_decide_eq_true in Hnd.
    apply Is_true_true, forallb_True in Hvals.
    simpl. do 3 f_equal.
    match goal with Hp : kvs ≡ₚ ?l |- _ =>
      rename Hp into Hperm; rename l into kvs' end.
    rewrite (sort_items_Permutation _
               ((fun kv => (kv.1, json_dumps kv.2)) <$> kvs')).
    2:{ rewrite <- list_fmap_compose.
        by rewrite (list_fmap_ext _ fst kvs) by done. }
    2:{ by rewrite Hperm. }
    do 2 f_equal. rewrite Hperm in IH, Hvals. clear Hperm Hnd Hequiv.
    match goal with Hall : Forall2 _ kvs' _ |- _ =>
      induction Hall as [|x y xs' ys' [Hk Hv] _ IHall]; [done|] end.
    apply Forall_cons in IH as [IHx IHxs], Hvals as [Hx Hxs].
    rewrite !fmap_cons. f_equal; [|by apply IHall].
    rewrite Hk. f_equal. apply IHx; [by apply Is_true_true|done].
Qed.

Lemma compute_messages_hash_fields entry m t c :
  request_fields entry = Some (m, t, c) ->
  compute_messages_hash entry
  = Ok (md5_hexdigest (json_dumps
         (JObj [("messages", m); ("tools", t); ("tool_choice", c)]))).
Proof.
  rewrite compute_messages_hash_request. unfold request_fields.
  destruct (get_or entry "request" (JObj [])); try done.
  by intros [= <- <- <-].
Qed.



(** A [request] that is present and [null] is not an absent one: the
    default of [entry.get("request", {})] does not apply and [.get] raises. *)
Remark compute_messages_hash_null_request :
  compute_messages_hash [("request", JNull)] = Raise AttributeError.
Proof. reflexivity. Qed.

(** Equality as logical values keeps the types the decoder gives: [true] and
    the int 1 serialise apart. *)
Remark bool_and_int_serialise_apart :
  json_dumps (JBool true) <> json_dumps (JInt 1).
Proof. done. Qed.

End Canonical.



(** ** The loader *)

Section Loader.
Context {txt : PyText}.

Lemma load_loop_acc lines rows :
  load_loop lines rows = rows ++ load_loop lines [].
Proof.
  revert rows. induction lines as [|line lines IH]; intros rows; simpl.
  - by rewrite app_nil_r.
  - destruct (decide (str_strip line = "")); [apply IH|].
    destruct (json_loads (str_strip line)) as [v|]; [|apply IH].
    rewrite (IH (rows ++ [v])), (IH [v]). by rewrite <- app_assoc.
Qed.

Lemma load_jsonl_cons line lines :
  load_jsonl (line :: lines)
  = (if decide (str_strip line = "") then []
     else match json_loads (str_strip line) with
          | Some v => [v]
          | None => []
          end) ++ load_jsonl lines.
Proof.
  unfold load_jsonl. simpl.
  destruct (decide (str_strip line = "")); [done|].
  destruct (json_loads (str_strip line)) as [v|]; [|done].
  by rewrite load_loop_acc.
Qed.

Lemma load_jsonl_app l1 l2 :
  load_jsonl (l1 ++ l2) = load_jsonl l1 ++ load_jsonl l2.
Proof.
  induction l1 as [|line l1 IH]; [done|].
  rewrite <- app_comm_cons, !load_jsonl_cons, IH. by rewrite app_assoc.
Qed.



End Loader.


(** ** What the extractor returns *)

Lemma nested_finish_reason_spec_truthy entry :
  nested_finish_reason_spec entry = JNull
  \/ truthy (nested_finish_reason_spec entry) = true.
Proof.
  unfold nested_finish_reason_spec.
  destruct (dict_get entry "response") as [[| | | | | |resp]|]; auto.
  destruct (dict_get resp "choices") as [[| | | | |[|[| | | | | |ch0] ?]|]|];
    auto.
  destruct (dict_get ch0 "finish_reason") as [fr|]; auto.
  destruct (truthy fr) eqn:Hfr; auto.
Qed.

(** X3: the extractor returns the absence marker or a truthy value; an empty
    string, a zero, [false] or an empty container stored as a finish reason
    is never returned. *)
Theorem extract_finish_reason_none_or_truthy (entry : dict) (fr : json) :
  extract_finish_reason entry = Ok fr -> fr = JNull \/ truthy fr = true.
Proof.
  destruct (truthy (get_or entry "finish_reason" JNull)) eqn:Htop.
  - rewrite extract_finish_reason_top by done. intros [= <-]. by right.
  - rewrite extract_finish_reason_nested by done.
    destruct (nested_shape_ok entry); [|done]. intros [= <-].
    apply nested_finish_reason_spec_truthy.
Qed.

(** An empty top-level finish reason over an empty nested one. *)
Lemma extract_finish_reason_none_or_truthy_witness :
  extract_finish_reason
    [("finish_reason", JStr "");
     ("response", JObj [("choices",
        JArr [JObj [("finish_reason", JStr "")]])])] = Ok JNull
  /\ (JNull = JNull \/ truthy JNull = true).
Proof.
  split; [reflexivity|].
  apply (extract_finish_reason_none_or_truthy
           [("finish_reason", JStr "");
            ("response", JObj [("choices",
               JArr [JObj [("finish_reason", JStr "")]])])] JNull).
  reflexivity.
Defined.

(** ** The index builder: errors, order of the rows, repeated rows *)

Section IndexExtras.
Context {lib : PyLib}.

Lemma compute_messages_hash_raises entry :
  request_ok entry = false ->
  compute_messages_hash entry = Raise AttributeError.
Proof.
  rewrite compute_messages_hash_request. unfold request_ok.
  by destruct (get_or entry "request" (JObj [])).
Qed.

Lemma build_loop_raise_iff rows st e :
  build_loop rows st = Raise e
  <-> e = AttributeError /\ Exists (fun r => request_ok r = false) rows.
Proof.
  revert st. induction rows as [|r rows IH]; intros st; simpl.
  - split; [done|]. by intros [_ ?%Exists_nil].
  - rewrite Exists_cons. unfold build_step.
    destruct (request_ok r) eqn:Hr.
    + destruct (compute_messages_hash_ok r Hr) as [h ->]. simpl.
      destruct (decide (h ∈ dom st.1)); simpl; rewrite IH;
        (split; [intros [-> Hex]; auto | intros [-> [Hbad|Hex]]; [done|auto]]).
    + rewrite (compute_messages_hash_raises r Hr). simpl.
      split; [intros [= <-]; auto | by intros [-> _]].
Qed.

Lemma build_Ok_request_ok rows st st' :
  build_loop rows st = Ok st' -> Forall (fun r => request_ok r = true) rows.
Proof.
  intros Hb. apply Forall_forall. intros r Hr.
  destruct (request_ok r) eqn:Hok; [done|].
  assert (build_loop rows st = Raise AttributeError) as Hraise; [|congruence].
  apply build_loop_raise_iff. split; [done|].
  apply Exists_exists. eauto.
Qed.


(** X5: the order of the rows decides which record an index keeps, not what
    it counts: on a permutation of the rows the builder returns an index with
    the same keys, the same size and the same duplicate count. *)
Theorem build_map_counts_permutation_invariant (rows rows' : list dict) m d :
  rows ≡ₚ rows' ->
  build_map_by_messages_hash rows = Ok (m, d) ->
  exists m', build_map_by_messages_hash rows' = Ok (m', d)
             /\ dom m' = dom m /\ size m' = size m.
Proof.
  intros Hperm Hb.
  pose proof (build_Ok_request_ok _ _ _ Hb) as Hok. rewrite Hperm in Hok.
  destruct (build_loop_returns rows' (∅, 0) Hok) as [[m' d'] Hb'].
  destruct (build_map_invariant rows m d Hb) as (Hdom & _).
  destruct (build_map_invariant rows' m' d' Hb') as (Hdom' & _).
  assert (Hkeys : dom m' = dom m).
  { apply set_eq. intros h. rewrite Hdom, Hdom'.
    by setoid_rewrite Hperm. }
  assert (Hsize : size m' = size m).
  { by rewrite <- !size_dom, Hkeys. }
  pose proof (build_loop_size _ _ _ Hb) as Hn.
  pose proof (build_loop_size _ _ _ Hb') as Hn'. simpl in Hn, Hn'.
  rewrite map_size_empty in Hn, Hn'.
  apply Permutation_length in Hperm.
  exists m'. assert (d' = d) as <- by lia. done.
Qed.

Lemma build_loop_seen extra m d :
  Forall (fun r => exists h, compute_messages_hash r = Ok h /\ h ∈ dom m)
    extra ->
  build_loop extra (m, d) = Ok (m, d + length extra).
Proof.
  intros Hall. revert d.
  induction Hall as [|r extra (h & Hh & Hin) _ IH]; intros d; simpl.
  - by rewrite Nat.add_0_r.
  - unfold build_step. rewrite Hh. simpl.
    destruct (decide (h ∈ dom m)); [|done]. simpl.
    rewrite IH. do 2 f_equal. lia.
Qed.

(** X6: rows whose fingerprints the index already holds change nothing but
    the duplicate count, which grows by their number; in particular feeding
    the same rows a second time gives the same index. *)
Theorem build_map_absorbs_seen_rows (rows : list dict) m d :
  build_map_by_messages_hash rows = Ok (m, d) ->
  (forall extra,
     Forall (fun r => exists h, compute_messages_hash r = Ok h /\ h ∈ dom m)
       extra ->
     build_map_by_messages_hash (rows ++ extra) = Ok (m, d + length extra))
  /\ build_map_by_messages_hash (rows ++ rows) = Ok (m, d + length rows).
Proof.
  intros Hb.
  assert (Habsorb : forall extra,
     Forall (fun r => exists h, compute_messages_hash r = Ok h /\ h ∈ dom m)
       extra ->
     build_map_by_messages_hash (rows ++ extra) = Ok (m, d + length extra)).
  { intros extra Hall. unfold build_map_by_messages_hash in *.
    rewrite build_loop_app, Hb. simpl. by apply build_loop_seen. }
  split; [done|]. apply Habsorb.
  destruct (build_map_invariant rows m d Hb) as (Hdom & _).
  pose proof (build_Ok_request_ok _ _ _ Hb) as Hok.
  apply Forall_forall. intros r Hr.
  rewrite Forall_forall in Hok.
  destruct (compute_messages_hash_ok r (Hok r Hr)) as [h Hh].
  exists h. split; [done|]. apply Hdom. eauto.
Qed.

Lemma build_dups_zero_iff rows m d :
  build_map_by_messages_hash rows = Ok (m, d) ->
  d = 0 <-> NoDup (compute_messages_hash <$> rows).
Proof.
  revert m d. induction rows as [|r rows IH] using rev_ind; intros m' d'.
  { intros [= <- <-]. split; [constructor|done]. }
  unfold build_map_by_messages_hash. rewrite build_loop_app.
  intros ([m d] & Hrows & Hlast)%bind_Ok.
  specialize (IH m d Hrows).
  destruct (build_map_invariant rows m d Hrows) as (Hdom & _).
  simpl in Hlast. apply bind_Ok in Hlast as (st1 & Hstep & [= ->]).
  apply build_step_Ok in Hstep as (h0 & Hh0 & Hcase). simpl in Hcase.
  assert (Hseen : h0 ∈ dom m <->
            compute_messages_hash r ∈ compute_messages_hash <$> rows).
  { rewrite Hdom, Hh0, list_elem_of_fmap. split.
    - intros (x & Hx & Hhx). eauto.
    - intros (x & Hhx & Hx). eauto. }
  rewrite fmap_app, NoDup_app. simpl.
  destruct Hcase as [[Hin [= -> ->]] | [Hnot [= -> ->]]].
  - split; [done|]. intros (_ & Hdisj & _). exfalso.
    apply (Hdisj (compute_messages_hash r)); [by apply Hseen|by left].
  - rewrite IH. split.
    + intros Hnd. split; [done|]. split; [|apply NoDup_singleton].
      intros x Hx ->%list_elem_of_singleton. by apply Hnot, Hseen.
    + by intros (Hnd & _).
Qed.

(** X7: the duplicate count is zero exactly when the fingerprints of the rows
    are pairwise distinct, and then the index has one entry per row. *)
Theorem build_map_no_duplicates_iff (rows : list dict) m d :
  build_map_by_messages_hash rows = Ok (m, d) ->
  (d = 0 <-> NoDup (compute_messages_hash <$> rows))
  /\ (d = 0 -> size m = length rows).
Proof.
  intros Hb. split; [exact (build_dups_zero_iff rows m d Hb)|].
  intros ->. apply build_loop_size in Hb. simpl in Hb.
  rewrite map_size_empty in Hb. lia.
Qed.

End IndexExtras.

(** The same three rows in two orders: another record is kept for the
    shared fingerprint, the counts agree. *)
Lemma build_map_counts_permutation_invariant_witness :
  exists m',
    @build_map_by_messages_hash sample_lib [rec_bare; rec_stop; rec_tool]
      = Ok (m', 1)
    /\ dom m' = dom ({[ h_hi := rec_tool;
                        @json_dumps sample_lib default_key_obj := rec_bare ]}
                       : gmap string dict)
    /\ size m' = size ({[ h_hi := rec_tool;
                          @json_dumps sample_lib default_key_obj := rec_bare ]}
                         : gmap string dict).
Proof.
  apply (@build_map_counts_permutation_invariant sample_lib
           [rec_tool; rec_stop; rec_bare] [rec_bare; rec_stop; rec_tool]
           {[ h_hi := rec_tool;
              @json_dumps sample_lib default_key_obj := rec_bare ]} 1).
  - change [rec_bare; rec_stop; rec_tool]
      with (reverse [rec_tool; rec_stop; rec_bare]).
    symmetry. apply reverse_Permutation.
  - vm_compute. reflexivity.
Defined.

(** Two rows with one request, fed twice. *)
Lemma build_map_absorbs_seen_rows_witness :
  @build_map_by_messages_hash sample_lib
    ([rec_tool; rec_stop] ++ [rec_tool; rec_stop])
  = Ok ({[ h_hi := rec_tool ]}, 1 + length [rec_tool; rec_stop]).
Proof.
  apply (@build_map_absorbs_seen_rows sample_lib [rec_tool; rec_stop]
           {[ h_hi := rec_tool ]} 1).
  vm_compute. reflexivity.
Defined.

(** Two rows with different requests. *)
Lemma build_map_no_duplicates_iff_witness :
  (0 = 0 <-> NoDup (@compute_messages_hash sample_lib
                      <$> [rec_tool; rec_bare]))
  /\ (0 = 0 -> size ({[ h_hi := rec_tool;
                        @json_dumps sample_lib default_key_obj := rec_bare ]}
                       : gmap string dict)
               = length [rec_tool; rec_bare]).
Proof.
  apply (@build_map_no_duplicates_iff sample_lib [rec_tool; rec_bare]
           {[ h_hi := rec_tool;
              @json_dumps sample_lib default_key_obj := rec_bare ]} 0).
  vm_compute. reflexivity.
Defined.

(** ** The counters as counts *)

Lemma count_where_cons p h hs :
  count_where p (h :: hs) = (if p h then 1 else 0) + count_where p hs.
Proof.
  unfold count_where. rewrite filter_cons.
  destruct (decide (p h)) as [Hd|Hd]; destruct (p h); simpl; done.
Qed.

Lemma count_where_ext p q hs :
  (forall h, p h = q h) -> count_where p hs = count_where q hs.
Proof.
  intros Hpq. induction hs as [|h hs IH]; [done|].
  by rewrite !count_where_cons, Hpq, IH.
Qed.

Lemma count_where_false hs : count_where (fun _ => false) hs = 0.
Proof.
  induction hs as [|h hs IH]; [done|]. by rewrite count_where_cons, IH.
Qed.

Lemma scorable_sym ours_map off_map h :
  scorable ours_map off_map h -> scorable off_map ours_map h.
Proof.
  intros (o & f & fo & ff & Ho & Hf & Heo & Hef).
  by exists f, o, ff, fo.
Qed.

(** On a fingerprint it can score, the body of the loop applies the
    increments that the two records' triggers decide. *)
Lemma classify_step_scorable ours_map off_map h c :
  scorable ours_map off_map h ->
  classify_step ours_map off_map c h
  = Ok (bump_schema (triggered_at ours_map h) (valid_at ours_map h)
          (bump_matrix (triggered_at ours_map h) (triggered_at off_map h) c)).
Proof.
  intros (o & f & fo & ff & Ho & Hf & Heo & Hef).
  unfold classify_step, map_item, triggered_at, valid_at, triggers.
  rewrite Ho, Hf. simpl. by rewrite Heo, Hef.
Qed.

Lemma classify_step_Ok_scorable ours_map off_map h c c' :
  classify_step ours_map off_map c h = Ok c' -> scorable ours_map off_map h.
Proof.
  intros (o & f & fo & ff & Ho & Hf & Heo & Hef & _)%classify_step_Ok.
  by exists o, f, fo, ff.
Qed.

Lemma classify_loop_Ok_iff ours_map off_map hs c :
  (exists c', classify_loop ours_map off_map hs c = Ok c')
  <-> Forall (scorable ours_map off_map) hs.
Proof.
  revert c. induction hs as [|h hs IH]; intros c; simpl.
  - split; [constructor|by eexists].
  - rewrite Forall_cons, <- (IH (bump_schema (triggered_at ours_map h)
      (valid_at ours_map h) (bump_matrix (triggered_at ours_map h)
         (triggered_at off_map h) c))).
    split.
    + intros (c' & (c1 & Hstep & Hrest)%bind_Ok).
      pose proof (classify_step_Ok_scorable _ _ _ _ _ Hstep) as Hsc.
      rewrite (classify_step_scorable _ _ _ c Hsc) in Hstep.
      injection Hstep as <-. eauto.
    + intros (Hsc & c' & Hrest).
      rewrite (classify_step_scorable _ _ _ c Hsc). simpl. eauto.
Qed.

Lemma classify_loop_counts ours_map off_map hs c c' :
  classify_loop ours_map off_map hs c = Ok c' ->
  TP c' = TP c + count_where
    (fun h => triggered_at ours_map h && triggered_at off_map h) hs
  /\ FP c' = FP c + count_where
    (fun h => triggered_at ours_map h && negb (triggered_at off_map h)) hs
  /\ FN c' = FN c + count_where
    (fun h => negb (triggered_at ours_map h) && triggered_at off_map h) hs
  /\ TN c' = TN c + count_where
    (fun h => negb (triggered_at ours_map h)
              && negb (triggered_at off_map h)) hs
  /\ count_finish_reason_tool_calls c'
     = count_finish_reason_tool_calls c
       + count_where (fun h => triggered_at ours_map h) hs
  /\ count_successful_tool_call c'
     = count_successful_tool_call c
       + count_where
           (fun h => triggered_at ours_map h && valid_at ours_map h) hs.
Proof.
  revert c. induction hs as [|h hs IH]; intros c; simpl.
  - intros [= <-]. unfold count_where. simpl. lia.
  - intros (c1 & Hstep & Hrest)%bind_Ok.
    pose proof (classify_step_Ok_scorable _ _ _ _ _ Hstep) as Hsc.
    rewrite (classify_step_scorable _ _ _ c Hsc) in Hstep.
    injection Hstep as <-. apply IH in Hrest.
    rewrite !count_where_cons.
    destruct (triggered_at ours_map h), (triggered_at off_map h),
      (valid_at ours_map h); simpl in *; lia.
Qed.

(** X8: after the loop each counter is a count over the fingerprints
    processed: TP those where both records trigger, FP those where only the
    candidate's does, FN those where only the reference's does, TN those where
    neither does, the candidate-triggered counter those where the candidate's
    does, and the successful counter those where it does and its
    [tool_calls_valid] is truthy. *)
Theorem counters_are_counts (ours_map off_map : gmap string dict)
    (hs : list string) (c : counters) :
  classify_loop ours_map off_map hs counters_zero = Ok c ->
  TP c = count_where
    (fun h => triggered_at ours_map h && triggered_at off_map h) hs
  /\ FP c = count_where
    (fun h => triggered_at ours_map h && negb (triggered_at off_map h)) hs
  /\ FN c = count_where
    (fun h => negb (triggered_at ours_map h) && triggered_at off_map h) hs
  /\ TN c = count_where
    (fun h => negb (triggered_at ours_map h)
              && negb (triggered_at off_map h)) hs
  /\ count_finish_reason_tool_calls c
     = count_where (fun h => triggered_at ours_map h) hs
  /\ count_successful_tool_call c
     = count_where
         (fun h => triggered_at ours_map h && valid_at ours_map h) hs.
Proof. intros Hloop. apply classify_loop_counts in Hloop. done. Qed.

Lemma counters_are_counts_witness :
  TP (Counters 0 1 0 0 1 1) = count_where
    (fun h => triggered_at ours_sample h && triggered_at off_sample h)
    (aligned ours_sample off_sample)
  /\ FP (Counters 0 1 0 0 1 1) = count_where
    (fun h => triggered_at ours_sample h
              && negb (triggered_at off_sample h))
    (aligned ours_sample off_sample).
Proof.
  destruct (counters_are_counts ours_sample off_sample
              (aligned ours_sample off_sample) (Counters 0 1 0 0 1 1))
    as (Htp & Hfp & _).
  { vm_compute. reflexivity. }
  split; [exact Htp|exact Hfp].
Defined.

Lemma aligned_sym ours_map off_map :
  aligned off_map ours_map = aligned ours_map off_map.
Proof.
  unfold aligned.
  by rewrite (comm_L (∩) (dom off_map) (dom ours_map)).
Qed.

(** X9: exchanging the roles of the two indices exchanges FP with FN and
    keeps TP and TN, over the same aligned fingerprints; the loop returns for
    one assignment of roles exactly when it returns for the other. *)
Theorem swapping_roles_swaps_FP_FN (ours_map off_map : gmap string dict)
    (hs : list string) (c : counters) :
  classify_loop ours_map off_map hs counters_zero = Ok c ->
  aligned off_map ours_map = aligned ours_map off_map
  /\ exists c', classify_loop off_map ours_map hs counters_zero = Ok c'
       /\ TP c' = TP c /\ FP c' = FN c /\ FN c' = FP c /\ TN c' = TN c.
Proof.
  intros Hloop. split; [apply aligned_sym|].
  assert (Forall (scorable off_map ours_map) hs) as Hall.
  { eapply Forall_impl; [|apply scorable_sym].
    apply (classify_loop_Ok_iff _ _ _ counters_zero). eauto. }
  apply (classify_loop_Ok_iff _ _ _ counters_zero) in Hall as [c' Hloop'].
  exists c'. split; [done|].
  apply classify_loop_counts in Hloop as (Htp & Hfp & Hfn & Htn & _).
  apply classify_loop_counts in Hloop' as (Htp' & Hfp' & Hfn' & Htn' & _).
  simpl in *. rewrite Htp, Hfp, Hfn, Htn, Htp', Hfp', Hfn', Htn'.
  repeat split; apply count_where_ext; intros h;
    by destruct (triggered_at ours_map h), (triggered_at off_map h).
Qed.

Lemma swapping_roles_swaps_FP_FN_witness :
  exists c', classify_loop off_sample ours_sample
               (aligned ours_sample off_sample) counters_zero = Ok c'
    /\ TP c' = 0 /\ FP c' = 0 /\ FN c' = 1 /\ TN c' = 0.
Proof.
  apply (swapping_roles_swaps_FP_FN ours_sample off_sample
           (aligned ours_sample off_sample) (Counters 0 1 0 0 1 1)).
  vm_compute. reflexivity.
Defined.

(** X10: an index compared with itself has no FP and no FN: every one of its
    fingerprints is aligned and counts as TP or TN, and the
    candidate-triggered counter is TP. *)
Theorem self_comparison_has_no_disagreement (m : gmap string dict)
    (c : counters) :
  classify_loop m m (aligned m m) counters_zero = Ok c ->
  FP c = 0 /\ FN c = 0 /\ TP c + TN c = size m
  /\ count_finish_reason_tool_calls c = TP c.
Proof.
  intros Hloop.
  pose proof (classify_loop_total_count _ _ _ _ _ Hloop) as Htotal.
  apply classify_loop_counts in Hloop as (Htp & Hfp & Hfn & _ & Hcnt & _).
  simpl in *.
  assert (FP c = 0) as Hfp0.
  { rewrite Hfp, <- (count_where_false (aligned m m)).
    apply count_where_ext. intros h. by destruct (triggered_at m h). }
  assert (FN c = 0) as Hfn0.
  { rewrite Hfn, <- (count_where_false (aligned m m)).
    apply count_where_ext. intros h. by destruct (triggered_at m h). }
  repeat split; try done.
  - rewrite length_aligned in Htotal.
    rewrite (idemp_L (∩) (dom m)), size_dom in Htotal. lia.
  - rewrite Hcnt, Htp. apply count_where_ext. intros h.
    by destruct (triggered_at m h).
Qed.

Lemma self_comparison_has_no_disagreement_witness :
  FP (Counters 1 0 0 0 1 1) = 0 /\ FN (Counters 1 0 0 0 1 1) = 0
  /\ TP (Counters 1 0 0 0 1 1) + TN (Counters 1 0 0 0 1 1) = size ours_sample
  /\ count_finish_reason_tool_calls (Counters 1 0 0 0 1 1)
     = TP (Counters 1 0 0 0 1 1).
Proof.
  apply (self_comparison_has_no_disagreement ours_sample
           (Counters 1 0 0 0 1 1)).
  vm_compute. reflexivity.
Defined.

(** ** [main] as a whole *)

Lemma classify_loop_aligned_exn ours_map off_map hs c e :
  (forall h, h ∈ hs -> h ∈ dom ours_map /\ h ∈ dom off_map) ->
  classify_loop ours_map off_map hs c = Raise e -> e = AttributeError.
Proof.
  revert c. induction hs as [|h hs IH]; intros c Hdom; simpl; [done|].
  destruct (Hdom h) as [Ho Hf]; [by left|].
  destruct (classify_step_aligned ours_map off_map h Ho Hf)
    as [E | (o & f & v & E)]; rewrite E; simpl.
  - by intros [= <-].
  - apply IH. intros k Hk. apply Hdom. by right.
Qed.

Lemma length_aligned_le ours_map off_map :
  length (aligned ours_map off_map) <= size ours_map
  /\ length (aligned ours_map off_map) <= size off_map.
Proof.
  rewrite length_aligned, <- !size_dom.
  split; apply subseteq_size; intros h [Ho Hf]%elem_of_intersection; done.
Qed.

Section MainProperties.
Context {lib : PyLib}.

Lemma build_map_exn rows e :
  build_map_by_messages_hash rows = Raise e -> e = AttributeError.
Proof.
  unfold build_map_by_messages_hash. by intros [-> _]%build_loop_raise_iff.
Qed.

(** Every record an index holds is one of the rows it was built from. *)
Lemma build_map_values rows m d h r :
  build_map_by_messages_hash rows = Ok (m, d) -> m !! h = Some r -> r ∈ rows.
Proof.
  intros Hb Hr.
  destruct (build_map_invariant rows m d Hb) as (_ & Hfirst & _).
  apply Hfirst in Hr as (i & Hi & _). by eapply list_elem_of_lookup_2.
Qed.



(** X13: the numbers of a summary agree with one another: on each side the
    unique hashes and the duplicates add up to the rows loaded, the aligned
    count is at most the unique count of either side, and TP, FP, FN and TN
    add up to the aligned count. *)
Theorem summary_numbers_are_consistent (ours_rows off_rows : list dict)
    (s : json) :
  main ours_rows off_rows = Ok s ->
  exists n_ours n_off n_aligned ours_dups off_dups c r,
    s = summary_of n_ours n_off n_aligned ours_dups off_dups c r
    /\ n_ours + ours_dups = length ours_rows
    /\ n_off + off_dups = length off_rows
    /\ n_aligned <= n_ours /\ n_aligned <= n_off
    /\ TP c + FP c + FN c + TN c = n_aligned
    /\ ratios c = Ok r.
Proof.
  unfold main.
  intros ([m1 d1] & Hb1 & ([m2 d2] & Hb2 & Hscore)%bind_Ok)%bind_Ok.
  simpl in Hscore. unfold score_in_order in Hscore.
  apply bind_Ok in Hscore as (c & Hloop & (r & Hr & [= <-])%bind_Ok).
  exists (size m1), (size m2), (length (aligned m1 m2)), d1, d2, c, r.
  apply build_loop_size in Hb1, Hb2. simpl in Hb1, Hb2.
  rewrite map_size_empty in Hb1, Hb2.
  destruct (length_aligned_le m1 m2) as [Hle1 Hle2].
  apply classify_loop_total_count in Hloop. simpl in Hloop.
  repeat split; try done; lia.
Qed.

End MainProperties.



(** One aligned pair out of two candidate rows and two reference rows. *)
Lemma summary_numbers_are_consistent_witness :
  exists n_ours n_off n_aligned ours_dups off_dups c r,
    @summary_of sample_lib 1 2 1 1 0 (Counters 0 1 0 0 1 1)
      (float_zero, float_zero, float_zero, float_of_int 1)
    = @summary_of sample_lib n_ours n_off n_aligned ours_dups off_dups c r
    /\ n_ours + ours_dups = length [rec_tool; rec_stop]
    /\ n_off + off_dups = length [rec_stop; rec_bare]
    /\ n_aligned <= n_ours /\ n_aligned <= n_off
    /\ TP c + FP c + FN c + TN c = n_aligned
    /\ ratios c = Ok r.
Proof.
  apply (@summary_numbers_are_consistent sample_lib
           [rec_tool; rec_stop] [rec_stop; rec_bare]).
  vm_compute. reflexivity.
Defined.

(** ** The order of the aligned fingerprints *)

(** X14: the order in which the aligned fingerprints are processed does not
    depend on the order in which the intersection of the key sets is
    enumerated: sorting any enumeration without repeats of the common keys
    gives the list [aligned], which is ascending. *)
Theorem aligned_order_is_canonical (ours_map off_map : gmap string dict) :
  Sorted String.le (aligned ours_map off_map)
  /\ (forall l : list string,
        NoDup l ->
        (forall h, h ∈ l <-> h ∈ dom ours_map /\ h ∈ dom off_map) ->
        merge_sort String.le l = aligned ours_map off_map).
Proof.
  split; [apply Sorted_merge_sort, _|].
  intros l Hnd Hl. apply (Sorted_unique String.le).
  - apply Sorted_merge_sort, _.
  - apply Sorted_merge_sort, _.
  - rewrite merge_sort_Permutation.
    apply NoDup_Permutation; [done|apply NoDup_aligned|].
    intros h. by rewrite Hl, elem_of_aligned.
Qed.

Lemma aligned_order_is_canonical_witness :
  let ours : gmap string dict := {[ "a" := rec_tool; "b" := rec_stop ]} in
  let off : gmap string dict := {[ "a" := rec_stop; "b" := rec_tool ]} in
  merge_sort String.le ["b"; "a"] = aligned ours off.
Proof.
  apply (proj2 (aligned_order_is_canonical
                  {[ "a" := rec_tool; "b" := rec_stop ]}
                  {[ "a" := rec_stop; "b" := rec_tool ]})).
  - apply NoDup_cons. split; [|apply NoDup_singleton].
    intros Hin%list_elem_of_singleton. discriminate Hin.
  - intros h. rewrite !dom_insert_L, !dom_singleton_L.
    rewrite !elem_of_cons, elem_of_nil, !elem_of_union, !elem_of_singleton.
    tauto.
Defined.

(** ** Later duplicates and the summary *)

Section DuplicatesAndSummary.
Context {lib : PyLib}.

(** X15: candidate rows whose fingerprints earlier rows already carry are
    pure diagnostics: appended to the candidate input they leave every number
    of the summary as it was, except [duplicate_ours_hashes], which grows by
    their number. *)
Theorem later_duplicates_change_only_the_duplicate_count
    (ours_rows extra off_rows : list dict) m1 d1 m2 d2 c r :
  build_map_by_messages_hash ours_rows = Ok (m1, d1) ->
  build_map_by_messages_hash off_rows = Ok (m2, d2) ->
  Forall (fun x => exists h, compute_messages_hash x = Ok h /\ h ∈ dom m1)
    extra ->
  classify_loop m1 m2 (aligned m1 m2) counters_zero = Ok c ->
  ratios c = Ok r ->
  main ours_rows off_rows
  = Ok (summary_of (size m1) (size m2) (length (aligned m1 m2)) d1 d2 c r)
  /\ main (ours_rows ++ extra) off_rows
     = Ok (summary_of (size m1) (size m2) (length (aligned m1 m2))
             (d1 + length extra) d2 c r).
Proof.
  intros Hb1 Hb2 Hseen Hloop Hr.
  assert (Hb1' : build_map_by_messages_hash (ours_rows ++ extra)
                 = Ok (m1, d1 + length extra)).
  { unfold build_map_by_messages_hash in *.
    rewrite build_loop_app, Hb1. simpl. by apply build_loop_seen. }
  unfold main. rewrite Hb1, Hb1', Hb2. simpl.
  unfold score_in_order. rewrite Hloop. simpl. by rewrite Hr.
Qed.

End DuplicatesAndSummary.

(** A second copy of the candidate's row. *)
Lemma later_duplicates_change_only_the_duplicate_count_witness :
  let off : gmap string dict :=
    {[ h_hi := rec_stop;
       @json_dumps sample_lib default_key_obj := rec_bare ]} in
  @main sample_lib [rec_tool] [rec_stop; rec_bare]
  = Ok (@summary_of sample_lib (size ours_sample) (size off)
          (length (aligned ours_sample off)) 0 0
          (Counters 0 1 0 0 1 1)
          (float_zero, float_zero, float_zero, float_of_int 1))
  /\ @main sample_lib ([rec_tool] ++ [rec_stop]) [rec_stop; rec_bare]
     = Ok (@summary_of sample_lib (size ours_sample) (size off)
             (length (aligned ours_sample off))
             (0 + length [rec_stop]) 0
             (Counters 0 1 0 0 1 1)
             (float_zero, float_zero, float_zero, float_of_int 1)).
Proof.
  apply (@later_duplicates_change_only_the_duplicate_count sample_lib
           [rec_tool] [rec_stop] [rec_stop; rec_bare]
           ours_sample 0
           {[ h_hi := rec_stop;
              @json_dumps sample_lib default_key_obj := rec_bare ]} 0).
  - vm_compute. reflexivity.
  - vm_compute. reflexivity.
  - constructor; [|constructor]. exists h_hi. split; [reflexivity|].
    apply elem_of_dom. exists rec_tool. vm_compute. reflexivity.
  - vm_compute. reflexivity.
  - vm_compute. reflexivity.
Defined.
